(** * simmc.utils.conf_injector: configuration sessions

    A shallow embedding of [src/simmc/utils/conf_injector.py]: field
    discovery ([_get_configurable_fields]), the configuration session
    ([ConfigSession.__enter__] / [ConfigSession.__exit__]) and the class
    decorator ([Inject]).

    Python objects are modelled by the value type [pyval]; exceptions by an
    error monad over an explicit world (file system, standard output and a
    log of file-system operations).  The value codec ([smartjson]) is an
    external collaborator and is a parameter of the development. *)

From Stdlib Require Import ZArith Ascii String.
From stdpp Require Import gmap strings list fin_maps pretty.

Local Open Scope string_scope.

#[local] Set Warnings "-register-all,-clear-no-such-hyp".

(** ** Python values *)

(** The values that matter to the module: the JSON-compatible ones (what
    [json.load] produces and [json.dump] accepts; numbers are integers
    here), callables, and any other object.  A [dict] is an
    insertion-ordered association list with string keys, as a JSON object
    is. *)
Inductive pyval : Type :=
| VNone
| VBool (b : bool)
| VInt (z : Z)
| VStr (s : string)
| VList (l : list pyval)
| VDict (d : list (string * pyval))
| VFunc (name : string)
| VObj (tag : string).

(** [callable(v)] *)
Definition callable (v : pyval) : bool :=
  match v with
  | VFunc _ => true
  | _ => false
  end.

(** [name.startswith('_')] *)
Definition startswith_underscore (name : string) : bool :=
  match name with
  | String c _ => if decide (c = "_"%char) then true else false
  | EmptyString => false
  end.

(** A declared type, the value of an annotation: its name. *)
Definition pytype := string.

(** ** Ordered dictionaries with string keys *)

Module Dict.

Definition t (V : Type) := list (string * V).

(** [d.get(k)] *)
Fixpoint get {V} (d : t V) (k : string) : option V :=
  match d with
  | [] => None
  | (k', v) :: d' => if decide (k' = k) then Some v else get d' k
  end.

(** [d[k] = v]: an existing key keeps its position, a new key goes last. *)
Fixpoint set {V} (d : t V) (k : string) (v : V) : t V :=
  match d with
  | [] => [(k, v)]
  | (k', v') :: d' =>
      if decide (k' = k) then (k, v) :: d' else (k', v') :: set d' k v
  end.

Definition keys {V} (d : t V) : list string := d.*1.

End Dict.

(** ** Exceptions and results *)

Inductive exn_type : Type :=
| JSONDecodeError
| OSError
| UnicodeDecodeError
| AttributeError
| TypeError
| KeyError
| ValueError
| OtherException (name : string).

Record exn : Type := Exn { exn_class : exn_type; exn_msg : string }.

Inductive result (A : Type) : Type :=
| Ok (a : A)
| Raise (e : exn).
Arguments Ok {A} a.
Arguments Raise {A} e.

(** [except (json.JSONDecodeError, OSError)] *)
Definition is_json_or_os_error (e : exn) : bool :=
  match exn_class e with
  | JSONDecodeError | OSError => true
  | _ => false
  end.

(** [except Exception]: every exception of the model derives from
    [Exception]. *)
Definition is_exception (e : exn) : bool := true.

(** ** Functions and calls *)

(** A Python function: its qualified name, its positional parameters and
    its body. *)
Record pyfunc : Type :=
  PyFunc { fn_qualname : string;
           fn_params : list string;
           fn_body : list pyval → result pyval }.

(** A call with positional arguments: the arguments are bound to the
    parameters, and a call with the wrong number of them raises
    [TypeError] before the body runs. *)
Definition call (f : pyfunc) (args : list pyval) : result pyval :=
  if decide (length args = length (fn_params f)) then fn_body f args
  else Raise (Exn TypeError
                (fn_qualname f ++ "() takes " ++ pretty (length (fn_params f))
                 ++ " positional arguments but " ++ pretty (length args)
                 ++ " were given")).

(** ** Classes and instances *)

Record class : Type := Class {
          cls_qualname : string;            (* cls.__qualname__ *)
          cls_name : string;                (* cls.__name__ *)
          cls_hints : gmap string pytype;   (* get_type_hints(cls) *)
          cls_attrs : gmap string pyval;    (* dir(cls) with getattr(cls, name) *)
          cls_setattr : option pyfunc }.    (* cls.__setattr__, when assigned *)

Definition set_cls_setattr (cls : class) (f : pyfunc) : class :=
  {| cls_qualname := cls_qualname cls; cls_name := cls_name cls;
     cls_hints := cls_hints cls; cls_attrs := cls_attrs cls;
     cls_setattr := Some f |}.

(** [getattr(cls, name, dflt)] *)
Definition class_getattr (cls : class) (name : string) (dflt : pyval) : pyval :=
  default dflt (cls_attrs cls !! name).

Record instance : Type := Instance {
             inst_class : class;
             inst_dict : gmap string pyval }.    (* instance.__dict__ *)

(** [getattr(instance, name)]: the instance's own attribute, else the
    class attribute; [None] stands for [AttributeError]. *)
Definition getattr (inst : instance) (name : string) : option pyval :=
  match inst_dict inst !! name with
  | Some v => Some v
  | None => cls_attrs (inst_class inst) !! name
  end.

(** [hasattr(instance, name)] *)
Definition hasattr (inst : instance) (name : string) : bool :=
  bool_decide (is_Some (getattr inst name)).

(** The instance as an argument of a call. *)
Definition self_arg (inst : instance) : pyval :=
  VObj (cls_qualname (inst_class inst)).

(** [setattr(instance, name, value)], also [instance.name = value]: the
    class's [__setattr__] is called with the instance, the name and the
    value when the class has one of its own, otherwise the value is
    stored in the instance.  A [__setattr__] of the class that returns
    stores nothing (the only one the module installs always raises). *)
Definition setattr (inst : instance) (name : string) (value : pyval)
  : result instance :=
  match cls_setattr (inst_class inst) with
  | None => Ok (Instance (inst_class inst) (<[name := value]> (inst_dict inst)))
  | Some f =>
      match call f [self_arg inst; VStr name; value] with
      | Ok _ => Ok inst
      | Raise e => Raise e
      end
  end.

(** ** Files *)

(** What a regular file holds, as far as [json.load] can tell. *)
Inductive content : Type :=
| Json (v : pyval)     (* UTF-8 text of the JSON document [v] *)
| NotJson              (* UTF-8 text that is no JSON document, e.g. a truncated one *)
| NotUtf8              (* bytes that are not UTF-8 *)
| ReadError.           (* reading fails with an I/O error *)

Inductive file : Type :=
| Denied               (* the path exists and [open] fails: no permission, a directory *)
| Data (c : content).

(** The operations that change the file system, as they are logged. *)
Inductive fs_event : Type :=
| EvCreate (p : string)
| EvWrite (p : string) (c : content)
| EvReplace (src dst : string) (moved : file)
| EvUnlink (p : string).

(** The paths an operation changes. *)
Definition changes (ev : fs_event) (p : string) : Prop :=
  match ev with
  | EvCreate q | EvWrite q _ | EvUnlink q => q = p
  | EvReplace src dst _ => src = p ∨ dst = p
  end.

(** The outcome of the operations of one save that are not determined by
    the program: the name [tempfile.mkstemp] picks ([None]: it fails),
    whether writing the temporary file succeeds, and whether
    [os.replace] does. *)
Record save_io : Type :=
  SaveIO { io_tmp : option string;
           io_write_ok : bool;
           io_replace_ok : bool }.

(** A diagnostic line on standard output. *)
Inductive diag : Type :=
| LoadWarning (class_key key : string) (e : exn)
| SaveSkip (class_key key : string) (e : exn).

Definition diag_key (d : diag) : string :=
  match d with
  | LoadWarning _ k _ | SaveSkip _ k _ => k
  end.

(** The text that is printed. *)
Definition render (d : diag) : string :=
  match d with
  | LoadWarning class_key key e =>
      "[Config] Warning: Failed to load '" ++ class_key ++ "." ++ key
      ++ "': " ++ exn_msg e ++ ". Using default."
  | SaveSkip class_key key e =>
      "[Config] Skip saving '" ++ class_key ++ "." ++ key ++ "': " ++ exn_msg e
  end.

(** ** The state and its monad *)

Record state : Type :=
  State { st_fs : gmap string file;     (* the file system *)
          st_log : list fs_event;       (* the operations on it, oldest first *)
          st_out : list diag;           (* standard output, oldest first *)
          st_inst : instance }.         (* the instance of the session *)

Definition with_fs (s : state) (fs : gmap string file) (ev : fs_event) : state :=
  State fs (st_log s ++ [ev]) (st_out s) (st_inst s).
Definition with_inst (s : state) (inst : instance) : state :=
  State (st_fs s) (st_log s) (st_out s) inst.

(** A computation that may raise; the state survives an exception. *)
Definition M (A : Type) : Type := state → result A * state.

#[export] Instance M_ret : MRet M := λ A a s, (Ok a, s).
#[export] Instance M_bind : MBind M := λ A B f m s,
  match m s with
  | (Ok a, s') => f a s'
  | (Raise e, s') => (Raise e, s')
  end.

Definition raise {A} (e : exn) : M A := λ s, (Raise e, s).
Definition lift {A} (r : result A) : M A := λ s, (r, s).
Definition gets {A} (f : state → A) : M A := λ s, (Ok (f s), s).

(** [try: body / except <catches>: handler] *)
Definition try_except {A} (body : M A) (catches : exn → bool)
    (handler : exn → M A) : M A := λ s,
  match body s with
  | (Raise e, s') => if catches e then handler e s' else (Raise e, s')
  | r => r
  end.

(** [for x in l: body] *)
Fixpoint for_each {A} (l : list A) (body : A → M unit) : M unit :=
  match l with
  | [] => mret tt
  | x :: l' => body x ;; for_each l' body
  end.

(** [print(...)] *)
Definition print (d : diag) : M unit := λ s,
  (Ok tt, State (st_fs s) (st_log s) (st_out s ++ [d]) (st_inst s)).

(** *** File operations *)

(** [path.exists()] *)
Definition path_exists (p : string) : M bool :=
  gets (λ s, bool_decide (is_Some (st_fs s !! p))).

(** [open(path, 'r', encoding='utf-8')] *)
Definition open_read (p : string) : M content := λ s,
  match st_fs s !! p with
  | Some (Data c) => (Ok c, s)
  | Some Denied => (Raise (Exn OSError "Permission denied"), s)
  | None => (Raise (Exn OSError "No such file or directory"), s)
  end.

(** [json.load(f)] *)
Definition json_load (c : content) : result pyval :=
  match c with
  | Json v => Ok v
  | NotJson => Raise (Exn JSONDecodeError "Expecting value")
  | NotUtf8 => Raise (Exn UnicodeDecodeError "invalid start byte")
  | ReadError => Raise (Exn OSError "Input/output error")
  end.

(** What [json.dump] can write. *)
Fixpoint json_serialisable (v : pyval) : bool :=
  match v with
  | VNone | VBool _ | VInt _ | VStr _ => true
  | VList l => forallb json_serialisable l
  | VDict d => forallb (λ kv, json_serialisable kv.2) d
  | VFunc _ | VObj _ => false
  end.

(** [tempfile.mkstemp(dir=..., suffix='.tmp')]: creates a new, empty file;
    it never opens a file that exists. *)
Definition mkstemp (io : save_io) : M string := λ s,
  match io_tmp io with
  | Some tmp =>
      match st_fs s !! tmp with
      | None => (Ok tmp, with_fs s (<[tmp := Data NotJson]> (st_fs s)) (EvCreate tmp))
      | Some _ => (Raise (Exn OSError "File exists"), s)
      end
  | None => (Raise (Exn OSError "No usable temporary file name found"), s)
  end.

(** [with os.fdopen(fd, 'w', encoding='utf-8') as f: json.dump(doc, f, ...)]:
    when the document cannot be serialised or the write fails, what has
    been written so far stays in the file. *)
Definition dump_to (tmp : string) (doc : pyval) (io : save_io) : M unit := λ s,
  if json_serialisable doc then
    if io_write_ok io then
      (Ok tt, with_fs s (<[tmp := Data (Json doc)]> (st_fs s)) (EvWrite tmp (Json doc)))
    else
      (Raise (Exn OSError "No space left on device"),
       with_fs s (<[tmp := Data NotJson]> (st_fs s)) (EvWrite tmp NotJson))
  else
    (Raise (Exn TypeError "Object is not JSON serializable"),
     with_fs s (<[tmp := Data NotJson]> (st_fs s)) (EvWrite tmp NotJson)).

(** [os.replace(src, dst)]: an atomic rename. *)
Definition os_replace (src dst : string) (io : save_io) : M unit := λ s,
  match st_fs s !! src with
  | Some f =>
      if io_replace_ok io then
        (Ok tt, with_fs s (<[dst := f]> (delete src (st_fs s))) (EvReplace src dst f))
      else (Raise (Exn OSError "Permission denied"), s)
  | None => (Raise (Exn OSError "No such file or directory"), s)
  end.

(** [os.unlink(p)] *)
Definition os_unlink (p : string) : M unit := λ s,
  match st_fs s !! p with
  | Some _ => (Ok tt, with_fs s (delete p (st_fs s)) (EvUnlink p))
  | None => (Raise (Exn OSError "No such file or directory"), s)
  end.

(** *** Operations on values *)

Definition type_name (v : pyval) : string :=
  match v with
  | VNone => "NoneType" | VBool _ => "bool" | VInt _ => "int"
  | VStr _ => "str" | VList _ => "list" | VDict _ => "dict"
  | VFunc _ => "function" | VObj tag => tag
  end.

(** [v.get(key, dflt)]: only a dict has the method. *)
Definition py_get (v : pyval) (key : string) (dflt : pyval) : result pyval :=
  match v with
  | VDict d => Ok (default dflt (Dict.get d key))
  | _ => Raise (Exn AttributeError
                  ("'" ++ type_name v ++ "' object has no attribute 'get'"))
  end.

(** [v[key] = x] with a string key: only a dict accepts it. *)
Definition py_setitem (v : pyval) (key : string) (x : pyval) : result pyval :=
  match v with
  | VDict d => Ok (VDict (Dict.set d key x))
  | VList _ => Raise (Exn TypeError "list indices must be integers or slices, not str")
  | _ => Raise (Exn TypeError
                  ("'" ++ type_name v ++ "' object does not support item assignment"))
  end.

(** ** The module *)

Section ConfInjector.

(** The value codec of [smartjson]: it may return any value and raise
    any exception. *)
Variable serialize_value : pyval → pytype → result pyval.
Variable deserialize_value : pyval → pytype → result pyval.

(** The default path of the document, [constants._CONF_FILE]. *)
Variable _CONF_FILE : string.

(** *** Field discovery *)

(** One turn of the loop of [_get_configurable_fields]. *)
Definition discover_step (cls : class) (annotations : gmap string pytype)
    (instance_defaults : gmap string pyval)
    (acc : gmap string pytype * gset string) (name : string)
  : gmap string pytype * gset string :=
  match annotations !! name with
  | None => acc
  | Some ty =>
      match instance_defaults !! name with
      | None => acc
      | Some _ =>
          if startswith_underscore name then acc
          else
            let attr := class_getattr cls name VNone in
            if callable attr then acc
            else (<[name := ty]> acc.1, {[name]} ∪ acc.2)
      end
  end.

(** The names the loop visits, in the order it visits them. *)
Definition candidates (explicit_fields : option (gset string))
    (annotations : gmap string pytype) : list string :=
  match explicit_fields with
  | Some fields => elements fields
  | None => elements (dom annotations)
  end.

Definition _get_configurable_fields (cls : class)
    (explicit_fields : option (gset string))
    (instance_defaults : option (gmap string pyval))
  : gmap string pytype * gset string :=
  let instance_defaults := default ∅ instance_defaults in
  let annotations := cls_hints cls in
  foldl (discover_step cls annotations instance_defaults) (∅, ∅)
        (candidates explicit_fields annotations).

(** *** The session *)

(** The attributes of a [ConfigSession], but for [_instance], which is
    the instance of the state; [_fields_to_inject] is a set, given by
    the order in which it is iterated. *)
Record ConfigSession : Type :=
  Session { _readonly : bool;
            _path : string;
            _field_types : gmap string pytype;
            _class_key : string;
            _fields_to_inject : list string }.

(** [self._field_types[key]] *)
Definition field_type_of (self : ConfigSession) (key : string) : result pytype :=
  match _field_types self !! key with
  | Some ty => Ok ty
  | None => Raise (Exn KeyError key)
  end.

(** [setattr(self._instance, key, value)] *)
Definition set_instance_attr (key : string) (value : pyval) : M unit := λ s,
  match setattr (st_inst s) key value with
  | Ok inst => (Ok tt, with_inst s inst)
  | Raise e => (Raise e, s)
  end.

(** [getattr(self._instance, key)] *)
Definition get_instance_attr (key : string) : M pyval := λ s,
  match getattr (st_inst s) key with
  | Some v => (Ok v, s)
  | None => (Raise (Exn AttributeError ("object has no attribute '" ++ key ++ "'")), s)
  end.

(** The first part of [__enter__]: the block of the class in the
    document. *)
Definition load_class_config (self : ConfigSession) : M pyval :=
  ex ← path_exists (_path self);
  if ex : bool then
    f ← open_read (_path self);
    try_except
      (full_config ← lift (json_load f);
       lift (py_get full_config (_class_key self) (VDict [])))
      is_json_or_os_error
      (λ _, mret (VDict []))
  else mret (VDict []).

(** The body of the loop of [__enter__]. *)
Definition inject_field (self : ConfigSession) (class_config : pyval)
    (key : string) : M unit :=
  has ← gets (λ s, hasattr (st_inst s) key);
  if has : bool then
    default_val ← get_instance_attr key;
    field_type ← lift (field_type_of self key);
    raw_val ← lift (py_get class_config key default_val);
    try_except
      (injected_val ← lift (deserialize_value raw_val field_type);
       set_instance_attr key injected_val)
      is_exception
      (λ e, print (LoadWarning (_class_key self) key e))
  else mret tt.

Definition inject_fields (self : ConfigSession) (class_config : pyval) : M unit :=
  for_each (_fields_to_inject self) (inject_field self class_config).

Definition __enter__ (self : ConfigSession) : M unit :=
  class_config ← load_class_config self;
  inject_fields self class_config.

(** The first part of [__exit__]: the document as it is on disk now. *)
Definition reread (self : ConfigSession) : M pyval :=
  ex ← path_exists (_path self);
  if ex : bool then
    try_except
      (f ← open_read (_path self); lift (json_load f))
      is_json_or_os_error
      (λ _, mret (VDict []))
  else mret (VDict []).

(** The body of the loop of [__exit__]. *)
Definition save_field (self : ConfigSession) (class_block : Dict.t pyval)
    (key : string) : M (Dict.t pyval) :=
  field_type ← lift (field_type_of self key);
  try_except
    (val ← get_instance_attr key;
     encoded ← lift (serialize_value val field_type);
     mret (Dict.set class_block key encoded))
    is_exception
    (λ e, print (SaveSkip (_class_key self) key e);; mret class_block).

Fixpoint build_block (self : ConfigSession) (fields : list string)
    (class_block : Dict.t pyval) : M (Dict.t pyval) :=
  match fields with
  | [] => mret class_block
  | key :: fields' =>
      class_block' ← save_field self class_block key;
      build_block self fields' class_block'
  end.

(** [__exit__] up to [full_config[self._class_key] = class_block]. *)
Definition updated_document (self : ConfigSession) : M pyval :=
  full_config ← reread self;
  class_block ← build_block self (_fields_to_inject self) [];
  lift (py_setitem full_config (_class_key self) (VDict class_block)).

(** The write of [__exit__], under [_LOCK]. *)
Definition persist (self : ConfigSession) (io : save_io) (full_config : pyval)
  : M unit :=
  tmp_path ← mkstemp io;
  try_except
    (dump_to tmp_path full_config io;;
     os_replace tmp_path (_path self) io)
    is_exception
    (λ e, os_unlink tmp_path;; raise e).

Definition __exit__ (self : ConfigSession) (io : save_io) : M unit :=
  full_config ← updated_document self;
  if negb (_readonly self) then persist self io full_config
  else mret tt.

(** *** The decorator *)

Record Inject : Type :=
  MkInject { conf_path : string;
             _fields : option (gset string);
             readonly : bool }.

(** [Inject.__init__]: [config_file or _CONF_FILE] (a path is never
    falsy), and [set(at) if at else None] (an empty set is). *)
Definition Inject__init__ (at_ : option (gset string))
    (config_file : option string) (readonly : bool) : Inject :=
  {| conf_path := default _CONF_FILE config_file;
     _fields := match at_ with
                | Some fields => if decide (fields = ∅) then None else Some fields
                | None => None
                end;
     readonly := readonly |}.

(** The inner function of [__protect_class]:
    [def protect(name: str, value) -> None: raise AttributeError(...)]. *)
Definition protect : pyfunc :=
  {| fn_qualname := "Inject.__protect_class.<locals>.protect";
     fn_params := ["name"; "value"];
     fn_body := λ args,
       match args with
       | VStr name :: _ =>
           Raise (Exn AttributeError
                    ("property " ++ name
                     ++ " cannot set, because this class is read-only."))
       | _ => Raise (Exn AttributeError
                       "property cannot set, because this class is read-only.")
       end |}.

(** [need_protect.__setattr__ = protect] *)
Definition __protect_class (need_protect : class) : class :=
  set_cls_setattr need_protect protect.

(** The class as [Inject.__call__] leaves it (but for [__init__], which
    is [new_init] below). *)
Definition __call__ (self : Inject) (cls : class) : class :=
  if readonly self then __protect_class cls else cls.

(** The [instance_defaults] of [new_init]: the attributes of the class
    that are neither private nor callable. *)
Definition collect_defaults (cls : class) : gmap string pyval :=
  filter (λ kv, startswith_underscore kv.1 = false ∧ callable kv.2 = false)
         (cls_attrs cls).

Definition no_fields_error (cls : class) : exn :=
  Exn ValueError
      ("No valid configurable fields found in " ++ cls_name cls ++ ". "
       ++ "Ensure fields have type annotations and default values, and are not private.").

(** [new_init], for the decorated class [cls]; [original_init] is the
    initialiser the class had. *)
Definition new_init (self : Inject) (cls : class) (original_init : M unit)
    (io : save_io) : M unit :=
  original_init;;
  let instance_defaults := collect_defaults cls in
  let '(field_types, valid_fields) :=
    _get_configurable_fields cls (_fields self) (Some instance_defaults) in
  if decide (field_types = ∅) then raise (no_fields_error cls)
  else
    let fields_to_inject := valid_fields in
    let session := Session (readonly self) (conf_path self) field_types
                           (cls_qualname cls) (elements fields_to_inject) in
    __enter__ session;;
    (* pass *)
    __exit__ session io.

End ConfInjector.

(** ** Notions used by the statements *)

Section Notions.

Variable serialize_value : pyval → pytype → result pyval.
Variable deserialize_value : pyval → pytype → result pyval.

(** The safety filters of the loop of [_get_configurable_fields]. *)
Definition passes_filters (cls : class) (instance_defaults : gmap string pyval)
    (name : string) : Prop :=
  is_Some (cls_hints cls !! name) ∧
  is_Some (instance_defaults !! name) ∧
  startswith_underscore name = false ∧
  callable (class_getattr cls name VNone) = false.

(** The candidates of a call: the whitelist when there is one, else the
    annotated names. *)
Definition is_candidate (cls : class) (explicit_fields : option (gset string))
    (name : string) : Prop :=
  match explicit_fields with
  | Some fields => name ∈ fields
  | None => is_Some (cls_hints cls !! name)
  end.

(** [field_types] records the annotation of exactly the collected names. *)
Definition types_agree (cls : class)
    (acc : gmap string pytype * gset string) : Prop :=
  ∀ name, acc.1 !! name =
          if decide (name ∈ acc.2) then cls_hints cls !! name else None.

(** The instance after a [setattr] that returned. *)
Definition after_assign (inst : instance) (key : string) (v : pyval) : instance :=
  match cls_setattr (inst_class inst) with
  | None => Instance (inst_class inst) (<[key := v]> (inst_dict inst))
  | Some _ => inst
  end.

(** What the [try] of the loop of [__enter__] comes to for [key], on an
    instance that has the attribute: the value assigned, or the exception. *)
Definition load_attempt (self : ConfigSession) (cfg : Dict.t pyval)
    (inst : instance) (key : string) : option (result pyval) :=
  match getattr inst key with
  | None => None
  | Some default_val =>
      match _field_types self !! key with
      | None => None
      | Some field_type =>
          Some match deserialize_value (default default_val (Dict.get cfg key))
                                       field_type with
               | Ok v => match setattr inst key v with
                         | Ok _ => Ok v
                         | Raise e => Raise e
                         end
               | Raise e => Raise e
               end
      end
  end.

Definition load_warning (self : ConfigSession) (cfg : Dict.t pyval)
    (inst : instance) (key : string) : option diag :=
  match load_attempt self cfg inst key with
  | Some (Raise e) => Some (LoadWarning (_class_key self) key e)
  | _ => None
  end.

(** What the [try] of the loop of [__exit__] comes to for [key]. *)
Definition save_attempt (self : ConfigSession) (inst : instance) (key : string)
  : option (result pyval) :=
  match _field_types self !! key with
  | None => None
  | Some field_type =>
      Some match getattr inst key with
           | Some val => serialize_value val field_type
           | None => Raise (Exn AttributeError
                              ("object has no attribute '" ++ key ++ "'"))
           end
  end.

Definition save_skip (self : ConfigSession) (inst : instance) (key : string)
  : option diag :=
  match save_attempt self inst key with
  | Some (Raise e) => Some (SaveSkip (_class_key self) key e)
  | _ => None
  end.

(** The exceptions a computation can raise. *)
Definition raises_only {A} (m : M A) (P : exn → Prop) : Prop :=
  ∀ s e s', m s = (Raise e, s') → P e.

(** A computation that leaves a part of the state as it is. *)
Definition preserves {A B} (part : state → B) (m : M A) : Prop :=
  ∀ s r s', m s = (r, s') → part s' = part s.

(** The files: the file system and the log of its operations. *)
Definition files (s : state) : gmap string file * list fs_event :=
  (st_fs s, st_log s).

(** What [__exit__] only reads before it writes. *)
Definition files_and_instance (s : state)
  : gmap string file * list fs_event * instance :=
  (st_fs s, st_log s, st_inst s).

(** The error of a call of [protect] through [__setattr__]. *)
Definition protect_arity_error : exn :=
  Exn TypeError
      ("Inject.__protect_class.<locals>.protect() "
       ++ "takes 2 positional arguments but 3 were given").

(** The session that [new_init] opens. *)
Definition session_of (self : Inject) (cls : class) : ConfigSession :=
  let '(field_types, valid_fields) :=
    _get_configurable_fields cls (_fields self) (Some (collect_defaults cls)) in
  Session (readonly self) (conf_path self) field_types (cls_qualname cls)
          (elements valid_fields).

(** The exceptions of the load phase and of the save phase. *)
Definition load_errors (e : exn) : Prop :=
  exn_class e = OSError ∨ exn_class e = UnicodeDecodeError ∨
  exn_class e = AttributeError ∨ exn_class e = KeyError.

Definition save_errors (e : exn) : Prop :=
  exn_class e = OSError ∨ exn_class e = UnicodeDecodeError ∨
  exn_class e = TypeError ∨ exn_class e = KeyError.

End Notions.

(** ** A concrete class, codec and documents *)

Module Widget.

(** [class Widget: size: int = 10; _private: int = 1; label: str = "w";
    def run(self): ...] *)
Definition cls : class :=
  {| cls_qualname := "Widget";
     cls_name := "Widget";
     cls_hints := {[ "size" := "int"; "_private" := "int"; "label" := "str" ]};
     cls_attrs := {[ "size" := VInt 10; "_private" := VInt 1;
                     "label" := VStr "w"; "run" := VFunc "run";
                     "__init__" := VFunc "__init__" ]};
     cls_setattr := None |}.

(** A codec that checks the value against the declared type. *)
Definition codec (v : pyval) (ty : pytype) : result pyval :=
  match v with
  | VInt _ => if decide (ty = "int") then Ok v
              else Raise (Exn (OtherException "CodecError") "expected a str")
  | VStr _ => if decide (ty = "str") then Ok v
              else Raise (Exn (OtherException "CodecError") "expected an int")
  | _ => Raise (Exn (OtherException "CodecError") "unsupported value")
  end.

Definition path : string := "conf.json".
Definition tmp : string := "tmpk3x9.tmp".

Definition io_ok : save_io := SaveIO (Some tmp) true true.

Definition fresh (d : gmap string pyval) : instance := Instance cls d.

Definition start (fs : gmap string file) (inst : instance) : state :=
  State fs [] [] inst.

Definition session (ro : bool) : ConfigSession :=
  Session ro path {[ "size" := "int"; "label" := "str" ]} "Widget"
          ["size"; "label"].

Definition doc42 : pyval :=
  VDict [("Gadget", VDict [("n", VInt 1)]); ("Widget", VDict [("size", VInt 42)])].

(** A run that finds [doc42] on disk. *)
Definition s42 : state := start {[ path := Data (Json doc42) ]} (fresh ∅).

(** A document whose [size] is no integer, and an instance whose
    [label] is no string. *)
Definition doc_bad : pyval :=
  VDict [("Widget", VDict [("size", VStr "big"); ("label", VStr "x")])].
Definition s_bad : state :=
  start {[ path := Data (Json doc_bad) ]} (fresh {[ "label" := VInt 7 ]}).

(** A document file that cannot be opened. *)
Definition s_denied : state := start {[ path := Denied ]} (fresh ∅).

(** A save whose rename fails. *)
Definition io_rename_fails : save_io := SaveIO (Some tmp) true false.

(** [class Bare: _hidden: int = 0]: no configurable field. *)
Definition bare : class :=
  {| cls_qualname := "Bare";
     cls_name := "Bare";
     cls_hints := {[ "_hidden" := "int" ]};
     cls_attrs := {[ "_hidden" := VInt 0 ]};
     cls_setattr := None |}.

(** [@Inject(config_file=path)] and [@Inject(config_file=path, readonly=True)] *)
Definition inject_rw : Inject := Inject__init__ "simmc.json" None (Some path) false.
Definition inject_ro : Inject := Inject__init__ "simmc.json" None (Some path) true.

(** A run on an instance of the read-only [Widget]. *)
Definition s42_ro : state :=
  start {[ path := Data (Json doc42) ]} (Instance (__call__ inject_ro cls) ∅).

End Widget.


(** * Properties *)

Local Open Scope list_scope.

#[local] Set Default Proof Using "Type".

(** ** Dictionaries *)

Lemma Dict_get_set_eq {V} (d : Dict.t V) k v :
  Dict.get (Dict.set d k v) k = Some v.
Proof.
  induction d as [|[k' v'] d IH]; simpl.
  - by rewrite decide_True.
  - destruct (decide (k' = k)) as [->|Hne]; simpl.
    + by rewrite decide_True.
    + by rewrite decide_False.
Qed.

Lemma Dict_get_set_ne {V} (d : Dict.t V) k k' v :
  k ≠ k' → Dict.get (Dict.set d k v) k' = Dict.get d k'.
Proof.
  intros Hne. induction d as [|[k0 v0] d IH]; simpl.
  - by rewrite decide_False.
  - destruct (decide (k0 = k)) as [->|Hne0]; simpl.
    + by rewrite !decide_False.
    + destruct (decide (k0 = k')); [done | apply IH].
Qed.

(** ** Field discovery *)

Section Discovery.

Variable cls : class.
Variable instance_defaults : gmap string pyval.

Let step := discover_step cls (cls_hints cls) instance_defaults.

Lemma discover_step_case acc name :
  (passes_filters cls instance_defaults name ∧
   ∃ ty, cls_hints cls !! name = Some ty ∧
         step acc name = (<[name := ty]> acc.1, {[name]} ∪ acc.2)) ∨
  (¬ passes_filters cls instance_defaults name ∧ step acc name = acc).
Proof.
  unfold step, discover_step, passes_filters.
  destruct (cls_hints cls !! name) as [ty|] eqn:Hty;
    [|right; split; [intros [[? ?] _]; done | done]].
  destruct (instance_defaults !! name) as [dv|] eqn:Hdv;
    [|right; split; [intros (_ & [? ?] & _); done | done]].
  destruct (startswith_underscore name) eqn:Hu;
    [right; split; [intros (_ & _ & ? & _); done | done]|].
  destruct (callable (class_getattr cls name VNone)) eqn:Hc;
    [right; split; [intros (_ & _ & _ & ?); done | done]|].
  left. split; [by eauto|]. by exists ty.
Qed.

(** The names collected by the loop are those already collected and the
    visited names that pass the filters. *)
Lemma discover_loop_names l acc name :
  name ∈ (foldl step acc l).2 ↔
  name ∈ acc.2 ∨ (name ∈ l ∧ passes_filters cls instance_defaults name).
Proof.
  revert acc. induction l as [|x l IH]; intros acc; simpl.
  - split; [by left | intros [?|[H _]]; [done | by apply elem_of_nil in H]].
  - rewrite IH.
    destruct (discover_step_case acc x) as [(Hp & ty & _ & ->)|[Hnp ->]]; simpl.
    + rewrite elem_of_union, elem_of_singleton, elem_of_cons. naive_solver.
    + rewrite elem_of_cons. naive_solver.
Qed.

Lemma discover_loop_types l acc :
  types_agree cls acc → types_agree cls (foldl step acc l).
Proof.
  revert acc. induction l as [|x l IH]; intros acc Hacc; simpl; [done|].
  apply IH.
  destruct (discover_step_case acc x) as [(Hp & ty & Hty & ->)|[Hnp ->]];
    [|done].
  intros name. simpl. destruct (decide (x = name)) as [->|Hne].
  - rewrite lookup_insert_eq, decide_True by set_solver. done.
  - rewrite lookup_insert_ne by done. rewrite Hacc.
    destruct (decide (name ∈ acc.2)).
    + by rewrite decide_True by set_solver.
    + by rewrite decide_False by set_solver.
Qed.

End Discovery.

Lemma candidates_spec cls explicit_fields name :
  name ∈ candidates explicit_fields (cls_hints cls) ↔
  is_candidate cls explicit_fields name.
Proof.
  unfold candidates, is_candidate. destruct explicit_fields.
  - apply elem_of_elements.
  - rewrite elem_of_elements. apply elem_of_dom.
Qed.

Lemma discover_types_agree cls explicit_fields instance_defaults :
  types_agree cls (_get_configurable_fields cls explicit_fields instance_defaults).
Proof.
  unfold _get_configurable_fields. apply discover_loop_types.
  intros name. simpl. rewrite lookup_empty. by rewrite decide_False by set_solver.
Qed.

Lemma discover_valid_fields cls explicit_fields instance_defaults name :
  name ∈ (_get_configurable_fields cls explicit_fields instance_defaults).2 ↔
  is_candidate cls explicit_fields name ∧
  passes_filters cls (default ∅ instance_defaults) name.
Proof.
  unfold _get_configurable_fields. rewrite discover_loop_names. simpl.
  rewrite candidates_spec. set_solver.
Qed.

(** C1 — Field discovery returns a name, in [valid_fields] and with its
    annotation in [field_types], if and only if the name is a candidate
    (a name of the whitelist when one is given, be it empty; an annotated
    name otherwise), is annotated, is in [instance_defaults], does not
    start with an underscore and is not a callable attribute of the
    class.  A whitelist restricts the candidates and nothing else. *)
Theorem discovery_returns_exactly_the_safe_candidates
    (cls : class) (explicit_fields : option (gset string))
    (instance_defaults : option (gmap string pyval)) (name : string) :
  let defaults := default ∅ instance_defaults in
  let qualifies :=
    match explicit_fields with
    | Some whitelist => name ∈ whitelist
    | None => is_Some (cls_hints cls !! name)
    end ∧
    is_Some (cls_hints cls !! name) ∧
    is_Some (defaults !! name) ∧
    startswith_underscore name = false ∧
    callable (class_getattr cls name VNone) = false in
  let '(field_types, valid_fields) :=
    _get_configurable_fields cls explicit_fields instance_defaults in
  (name ∈ valid_fields ↔ qualifies) ∧
  (∀ ty, field_types !! name = Some ty ↔
         qualifies ∧ cls_hints cls !! name = Some ty).
Proof.
  intros defaults qualifies.
  pose proof (discover_valid_fields cls explicit_fields instance_defaults name) as Hv.
  pose proof (discover_types_agree cls explicit_fields instance_defaults name) as Ht.
  destruct (_get_configurable_fields cls explicit_fields instance_defaults)
    as [field_types valid_fields]. simpl in *.
  assert (name ∈ valid_fields ↔ qualifies) as Hq by exact Hv.
  split; [exact Hq|]. intros ty. rewrite Ht.
  destruct (decide (name ∈ valid_fields)) as [Hin|Hnin].
  - split; [intros H; split; [by apply Hq | done] | by intros [_ ?]].
  - split; [done | intros [H _]; by apply Hq in H].
Qed.

(** ** The session *)

Ltac unfold_monad :=
  unfold path_exists, print in *;
  unfold mbind, M_bind, mret, M_ret, lift, gets, raise, try_except in *.

Lemma omap_ext_in {A B} (f g : A → option B) (l : list A) :
  (∀ x, x ∈ l → f x = g x) → omap f l = omap g l.
Proof.
  induction l as [|x l IH]; intros H; [done|].
  assert (omap f l = omap g l) as Hl.
  { apply IH. intros y Hy. apply H. by apply list_elem_of_further. }
  pose proof (H x (list_elem_of_here x l)) as Hx.
  simpl. rewrite Hx. destruct (g x); [f_equal|]; exact Hl.
Qed.

Lemma setattr_ok inst key v inst' :
  setattr inst key v = Ok inst' → inst' = after_assign inst key v.
Proof.
  unfold setattr, after_assign. destruct (cls_setattr (inst_class inst)).
  - destruct (call _ _); congruence.
  - congruence.
Qed.

Lemma after_assign_class inst key v :
  inst_class (after_assign inst key v) = inst_class inst.
Proof. unfold after_assign. by destruct (cls_setattr _). Qed.

Lemma after_assign_other inst key v k :
  k ≠ key →
  inst_dict (after_assign inst key v) !! k = inst_dict inst !! k.
Proof.
  intros Hne. unfold after_assign. destruct (cls_setattr _); simpl; [done|].
  by rewrite lookup_insert_ne.
Qed.

(** [getattr] and [setattr] look at the class and at one entry of the
    instance only. *)
Lemma getattr_congr inst1 inst2 key :
  inst_class inst1 = inst_class inst2 →
  inst_dict inst1 !! key = inst_dict inst2 !! key →
  getattr inst1 key = getattr inst2 key.
Proof. unfold getattr. by intros -> ->. Qed.

Lemma setattr_congr inst1 inst2 key v :
  inst_class inst1 = inst_class inst2 →
  match setattr inst1 key v, setattr inst2 key v with
  | Ok _, Ok _ => True
  | Raise e1, Raise e2 => e1 = e2
  | _, _ => False
  end.
Proof.
  unfold setattr, self_arg. intros ->.
  destruct (cls_setattr (inst_class inst2)); [|done].
  by destruct (call _ _).
Qed.

Section Session.

Variable serialize_value : pyval → pytype → result pyval.
Variable deserialize_value : pyval → pytype → result pyval.

Lemma load_attempt_congr self cfg inst1 inst2 key :
  inst_class inst1 = inst_class inst2 →
  inst_dict inst1 !! key = inst_dict inst2 !! key →
  load_attempt deserialize_value self cfg inst1 key =
  load_attempt deserialize_value self cfg inst2 key.
Proof.
  intros Hc Hd. unfold load_attempt.
  rewrite (getattr_congr inst1 inst2 key Hc Hd).
  destruct (getattr inst2 key) as [dv|]; [|done].
  destruct (_field_types self !! key) as [ty|]; [|done].
  destruct (deserialize_value _ ty) as [v|e]; [|done].
  pose proof (setattr_congr inst1 inst2 key v Hc) as H.
  destruct (setattr inst1 key v), (setattr inst2 key v); try done. by subst.
Qed.

(** One turn of the loop of [__enter__]. *)
Lemma inject_field_step self cfg key s :
  is_Some (_field_types self !! key) →
  inject_field deserialize_value self (VDict cfg) key s =
  (Ok tt,
   match load_attempt deserialize_value self cfg (st_inst s) key with
   | None => s
   | Some (Ok v) => with_inst s (after_assign (st_inst s) key v)
   | Some (Raise e) =>
       State (st_fs s) (st_log s)
             (st_out s ++ [LoadWarning (_class_key self) key e]) (st_inst s)
   end).
Proof.
  intros [ty Hty]. unfold inject_field, load_attempt, hasattr, get_instance_attr,
    field_type_of, set_instance_attr, py_get. unfold_monad. rewrite Hty.
  destruct (getattr (st_inst s) key) as [dv|] eqn:Hg; simpl.
  - rewrite Hg.
    destruct (deserialize_value _ ty) as [v|e]; [|done].
    destruct (setattr (st_inst s) key v) as [i|e] eqn:Hs; [|done].
    by rewrite (setattr_ok _ _ _ _ Hs).
  - done.
Qed.

Lemma after_assign_congr inst1 inst2 key v :
  inst_class inst1 = inst_class inst2 →
  inst_dict inst1 !! key = inst_dict inst2 !! key →
  inst_dict (after_assign inst1 key v) !! key =
  inst_dict (after_assign inst2 key v) !! key.
Proof.
  intros Hc Hd. unfold after_assign. rewrite Hc.
  destruct (cls_setattr (inst_class inst2)); simpl; [done|].
  by rewrite !lookup_insert_eq.
Qed.

(** The state after one turn of the loop. *)
Lemma inject_field_post self cfg key s s1 :
  s1 = match load_attempt deserialize_value self cfg (st_inst s) key with
       | None => s
       | Some (Ok v) => with_inst s (after_assign (st_inst s) key v)
       | Some (Raise e) =>
           State (st_fs s) (st_log s)
                 (st_out s ++ [LoadWarning (_class_key self) key e]) (st_inst s)
       end →
  st_fs s1 = st_fs s ∧ st_log s1 = st_log s ∧
  inst_class (st_inst s1) = inst_class (st_inst s) ∧
  st_out s1 = st_out s
              ++ option_list (load_warning deserialize_value self cfg (st_inst s) key) ∧
  (∀ k, k ≠ key → inst_dict (st_inst s1) !! k = inst_dict (st_inst s) !! k) ∧
  inst_dict (st_inst s1) !! key =
    match load_attempt deserialize_value self cfg (st_inst s) key with
    | Some (Ok v) => inst_dict (after_assign (st_inst s) key v) !! key
    | _ => inst_dict (st_inst s) !! key
    end.
Proof.
  intros ->. unfold load_warning.
  destruct (load_attempt _ _ _ _ _) as [[v|e]|]; simpl;
    rewrite ?app_nil_r, ?after_assign_class; repeat split; try done.
  intros k Hk. by apply after_assign_other.
Qed.

(** The loop of [__enter__] over fields that all have a declared type:
    it completes, leaves the files alone, and treats every field on its
    own, whatever happens to the others. *)
Lemma inject_fields_spec self cfg fields s :
  NoDup fields →
  (∀ k, k ∈ fields → is_Some (_field_types self !! k)) →
  ∃ s', for_each fields (inject_field deserialize_value self (VDict cfg)) s
        = (Ok tt, s') ∧
    st_fs s' = st_fs s ∧ st_log s' = st_log s ∧
    inst_class (st_inst s') = inst_class (st_inst s) ∧
    st_out s' = st_out s
                ++ omap (load_warning deserialize_value self cfg (st_inst s)) fields ∧
    (∀ k, k ∉ fields → inst_dict (st_inst s') !! k = inst_dict (st_inst s) !! k) ∧
    (∀ k, k ∈ fields →
       inst_dict (st_inst s') !! k =
       match load_attempt deserialize_value self cfg (st_inst s) k with
       | Some (Ok v) => inst_dict (after_assign (st_inst s) k v) !! k
       | _ => inst_dict (st_inst s) !! k
       end).
Proof.
  intros Hnd. revert s. induction Hnd as [|key fields Hnotin Hnd IH]; intros s Hft.
  - exists s. simpl. unfold_monad. rewrite app_nil_r.
    repeat split; try done. intros k Hk. by apply elem_of_nil in Hk.
  - simpl. unfold mbind, M_bind.
    rewrite inject_field_step by (apply Hft; apply list_elem_of_here).
    set (s1 := match load_attempt _ _ _ _ _ with None => _ | _ => _ end).
    destruct (inject_field_post self cfg key s s1 eq_refl)
      as (Hfs1 & Hlog1 & Hcls1 & Hout1 & Hoth1 & Hkey1).
    destruct (IH s1) as (s' & Hrun & Hfs & Hlog & Hcls & Hout & Hoth & Hin).
    { intros k Hk. apply Hft. by apply list_elem_of_further. }
    assert (∀ k, k ∈ fields →
              load_attempt deserialize_value self cfg (st_inst s1) k =
              load_attempt deserialize_value self cfg (st_inst s) k) as Hsame.
    { intros k Hk. apply load_attempt_congr; [done|].
      apply Hoth1. intros ->. done. }
    exists s'. split; [exact Hrun|].
    split; [congruence|]. split; [congruence|]. split; [congruence|].
    split; [|split].
    + rewrite Hout, Hout1, <- app_assoc. f_equal.
      rewrite (omap_ext_in (load_warning deserialize_value self cfg (st_inst s1))
                 (load_warning deserialize_value self cfg (st_inst s)) fields).
      * unfold load_warning at 2. simpl.
        by destruct (load_warning deserialize_value self cfg (st_inst s) key).
      * intros k Hk. unfold load_warning. by rewrite Hsame.
    + intros k Hk. rewrite not_elem_of_cons in Hk. destruct Hk as [Hne Hk].
      rewrite Hoth by done. by apply Hoth1.
    + intros k Hk. apply elem_of_cons in Hk. destruct Hk as [->|Hk].
      * rewrite Hoth by done. exact Hkey1.
      * assert (k ≠ key) as Hne by (intros ->; done).
        rewrite Hin by done. rewrite Hsame by done.
        destruct (load_attempt _ _ _ (st_inst s) k) as [[v|e]|];
          [|by apply Hoth1..].
        apply after_assign_congr; [done | by apply Hoth1].
Qed.

(** *** Parts of the state that a computation leaves alone *)

Lemma bind_inv {A B} (m : M A) (f : A → M B) s r s' :
  (m ≫= f) s = (r, s') →
  (∃ a s1, m s = (Ok a, s1) ∧ f a s1 = (r, s')) ∨
  (∃ e, m s = (Raise e, s') ∧ r = Raise e).
Proof.
  unfold mbind, M_bind. destruct (m s) as [[a|e] s1]; intros H.
  - left. by exists a, s1.
  - right. exists e. by inversion H.
Qed.

Lemma preserves_ret {A B} (part : state → B) (a : A) : preserves part (mret a).
Proof. intros s r s' H. unfold_monad. by inversion H. Qed.

Lemma preserves_lift {A B} (part : state → B) (x : result A) :
  preserves part (lift x).
Proof. intros s r s' H. unfold_monad. by inversion H. Qed.

Lemma preserves_raise {A B} (part : state → B) e : preserves part (@raise A e).
Proof. intros s r s' H. unfold_monad. by inversion H. Qed.

Lemma preserves_gets {A B} (part : state → B) (f : state → A) :
  preserves part (gets f).
Proof. intros s r s' H. unfold_monad. by inversion H. Qed.

Lemma preserves_bind {A B C} (part : state → C) (m : M A) (f : A → M B) :
  preserves part m → (∀ a, preserves part (f a)) → preserves part (m ≫= f).
Proof.
  intros Hm Hf s r s' H.
  apply bind_inv in H as [(a & s1 & H1 & H2)|(e & H1 & _)].
  - rewrite (Hf a _ _ _ H2). by apply (Hm _ _ _ H1).
  - by apply (Hm _ _ _ H1).
Qed.

Lemma preserves_try {A B} (part : state → B) (body : M A) catches handler :
  preserves part body → (∀ e, preserves part (handler e)) →
  preserves part (try_except body catches handler).
Proof.
  intros Hb Hh s r s' H. unfold try_except in H.
  destruct (body s) as [[a|e] s1] eqn:Hbody.
  - inversion H; subst. by apply (Hb _ _ _ Hbody).
  - destruct (catches e).
    + rewrite (Hh e _ _ _ H). by apply (Hb _ _ _ Hbody).
    + inversion H; subst. by apply (Hb _ _ _ Hbody).
Qed.

Lemma preserves_for_each {A B} (part : state → B) (l : list A) body :
  (∀ x, preserves part (body x)) → preserves part (for_each l body).
Proof.
  intros Hb. induction l as [|x l IH]; simpl.
  - apply preserves_ret.
  - apply preserves_bind; [apply Hb | intros _; apply IH].
Qed.

Lemma preserves_open_read {B} (part : state → B) p : preserves part (open_read p).
Proof.
  intros s r s' H. unfold open_read in H.
  destruct (st_fs s !! p) as [[|c]|]; by inversion H.
Qed.

Lemma preserves_get_instance_attr {B} (part : state → B) key :
  preserves part (get_instance_attr key).
Proof.
  intros s r s' H. unfold get_instance_attr in H.
  destruct (getattr _ _); by inversion H.
Qed.

Lemma preserves_print_files_and_instance d : preserves files_and_instance (print d).
Proof. intros s r s' H. unfold_monad. by inversion H. Qed.

Lemma preserves_files_of {A} (m : M A) :
  preserves files_and_instance m → preserves files m.
Proof.
  intros Hm s r s' H. apply Hm in H. unfold files_and_instance, files in *.
  by inversion H.
Qed.

Lemma load_class_config_preserves {B} (part : state → B) self :
  preserves part (load_class_config self).
Proof.
  unfold load_class_config, path_exists.
  apply preserves_bind; [apply preserves_gets|]. intros [|]; [|apply preserves_ret].
  apply preserves_bind; [apply preserves_open_read|]. intros c.
  apply preserves_try; [|intros _; apply preserves_ret].
  apply preserves_bind; [apply preserves_lift | intros v; apply preserves_lift].
Qed.

Lemma reread_preserves {B} (part : state → B) self : preserves part (reread self).
Proof.
  unfold reread, path_exists.
  apply preserves_bind; [apply preserves_gets|]. intros [|]; [|apply preserves_ret].
  apply preserves_try; [|intros _; apply preserves_ret].
  apply preserves_bind; [apply preserves_open_read | intros c; apply preserves_lift].
Qed.

Lemma save_field_preserves self block key :
  preserves files_and_instance (save_field serialize_value self block key).
Proof.
  unfold save_field.
  apply preserves_bind; [apply preserves_lift|]. intros ty.
  apply preserves_try.
  - apply preserves_bind; [apply preserves_get_instance_attr|]. intros v.
    apply preserves_bind; [apply preserves_lift | intros j; apply preserves_ret].
  - intros e. apply preserves_bind;
      [apply preserves_print_files_and_instance | intros _; apply preserves_ret].
Qed.

Lemma build_block_preserves self fields block :
  preserves files_and_instance (build_block serialize_value self fields block).
Proof.
  revert block. induction fields as [|key fields IH]; intros block; simpl.
  - apply preserves_ret.
  - apply preserves_bind; [apply save_field_preserves | intros b; apply IH].
Qed.

Lemma updated_document_preserves self :
  preserves files_and_instance (updated_document serialize_value self).
Proof.
  unfold updated_document.
  apply preserves_bind; [apply reread_preserves|]. intros doc.
  apply preserves_bind; [apply build_block_preserves|]. intros block.
  apply preserves_lift.
Qed.

Lemma updated_document_state self s r s1 :
  updated_document serialize_value self s = (r, s1) →
  st_fs s1 = st_fs s ∧ st_log s1 = st_log s ∧ st_inst s1 = st_inst s.
Proof.
  intros H. apply updated_document_preserves in H.
  unfold files_and_instance in H. by injection H.
Qed.

(** The load phase reads the files and does not change them. *)
Lemma inject_field_preserves_files self class_config key :
  preserves files (inject_field deserialize_value self class_config key).
Proof.
  unfold inject_field.
  apply preserves_bind; [apply preserves_gets|]. intros [|]; [|apply preserves_ret].
  apply preserves_bind; [apply preserves_get_instance_attr|]. intros dv.
  apply preserves_bind; [apply preserves_lift|]. intros ty.
  apply preserves_bind; [apply preserves_lift|]. intros raw.
  apply preserves_try.
  - apply preserves_bind; [apply preserves_lift|]. intros v s r s' H.
    unfold set_instance_attr in H. destruct (setattr _ _ _); by inversion H.
  - intros e s r s' H. unfold_monad. by inversion H.
Qed.

Lemma enter_preserves_files self :
  preserves files (__enter__ deserialize_value self).
Proof.
  unfold __enter__, inject_fields.
  apply preserves_bind; [apply load_class_config_preserves|]. intros cfg.
  apply preserves_for_each. intros key. apply inject_field_preserves_files.
Qed.

(** *** The write *)

Lemma temporary_file_gone (fs : gmap string file) tmp f g :
  fs !! tmp = None → delete tmp (<[tmp := f]> (<[tmp := g]> fs)) = fs.
Proof. intros H. rewrite insert_insert_eq, delete_insert_eq. by apply delete_id. Qed.

Lemma temporary_file_renamed (fs : gmap string file) tmp p f g h :
  fs !! tmp = None →
  <[p := h]> (delete tmp (<[tmp := f]> (<[tmp := g]> fs))) = <[p := h]> fs.
Proof. intros H. by rewrite temporary_file_gone. Qed.

(** The two ways a write ends: the rename has put the whole document at
    the path, or an exception is raised and the file system is as it was. *)
Lemma persist_cases self io doc s r s' :
  persist self io doc s = (r, s') →
  st_out s' = st_out s ∧ st_inst s' = st_inst s ∧
  ∃ evs, st_log s' = st_log s ++ evs ∧
    ((r = Ok tt ∧
      st_fs s' = <[_path self := Data (Json doc)]> (st_fs s) ∧
      ∃ tmp, io_tmp io = Some tmp ∧
             evs = [EvCreate tmp; EvWrite tmp (Json doc);
                    EvReplace tmp (_path self) (Data (Json doc))]) ∨
     (∃ e, r = Raise e ∧ st_fs s' = st_fs s ∧
           (evs = [] ∨
            ∃ tmp c, io_tmp io = Some tmp ∧
                     evs = [EvCreate tmp; EvWrite tmp c; EvUnlink tmp]))).
Proof.
  unfold persist, mkstemp, dump_to, os_replace, os_unlink, with_fs.
  unfold_monad.
  destruct (io_tmp io) as [tmp|] eqn:Htmp; simpl.
  2:{ intros H; inversion H; subst. repeat split. exists [].
      rewrite app_nil_r. split; [done|]. right. eauto. }
  destruct (st_fs s !! tmp) as [f|] eqn:Hfresh; simpl.
  { intros H; inversion H; subst. repeat split. exists [].
    rewrite app_nil_r. split; [done|]. right. eauto. }
  destruct (json_serialisable doc); [destruct (io_write_ok io)|]; simpl.
  - rewrite lookup_insert_eq. destruct (io_replace_ok io); simpl.
    + intros H; inversion H; subst; simpl. repeat split.
      eexists. rewrite <- !app_assoc. split; [done|]. left.
      split; [done|]. split; [by apply temporary_file_renamed|]. by exists tmp.
    + rewrite lookup_insert_eq. simpl.
      intros H; inversion H; subst; simpl. repeat split.
      eexists. rewrite <- !app_assoc. split; [done|]. right.
      eexists. split; [done|]. split; [by apply temporary_file_gone|].
      right. by exists tmp, (Json doc).
  - rewrite lookup_insert_eq. simpl.
    intros H; inversion H; subst; simpl. repeat split.
    eexists. rewrite <- !app_assoc. split; [done|]. right.
    eexists. split; [done|]. split; [by apply temporary_file_gone|].
    right. by exists tmp, NotJson.
  - rewrite lookup_insert_eq. simpl.
    intros H; inversion H; subst; simpl. repeat split.
    eexists. rewrite <- !app_assoc. split; [done|]. right.
    eexists. split; [done|]. split; [by apply temporary_file_gone|].
    right. by exists tmp, NotJson.
Qed.

(** When nothing fails, the write completes. *)
Lemma persist_completes self io doc tmp s :
  io_tmp io = Some tmp → st_fs s !! tmp = None →
  io_write_ok io = true → io_replace_ok io = true →
  json_serialisable doc = true →
  ∃ s', persist self io doc s = (Ok tt, s').
Proof.
  intros Htmp Hfresh Hw Hr Hj.
  unfold persist, mkstemp, dump_to, os_replace, os_unlink, with_fs.
  unfold_monad. rewrite Htmp, Hfresh. simpl. rewrite Hj, Hw. simpl.
  rewrite lookup_insert_eq, Hr. eauto.
Qed.

(** [__exit__] is the update of the document followed, when the session
    is not read-only, by the write. *)
Lemma exit_inv self io s r s' :
  __exit__ serialize_value self io s = (r, s') →
  (∃ e, updated_document serialize_value self s = (Raise e, s') ∧ r = Raise e) ∨
  (∃ doc s1, updated_document serialize_value self s = (Ok doc, s1) ∧
             if _readonly self then r = Ok tt ∧ s' = s1
             else persist self io doc s1 = (r, s')).
Proof.
  unfold __exit__. intros H.
  apply bind_inv in H as [(doc & s1 & H1 & H2)|(e & H1 & ->)]; [|left; eauto].
  right. exists doc, s1. split; [done|].
  destruct (_readonly self); simpl in H2; [|done].
  unfold_monad. by inversion H2.
Qed.

(** C2 — A save of a session that is not read-only either replaces the
    document file by the whole updated document, or raises and leaves
    the file system exactly as it was (the temporary file is removed,
    the document file is untouched).  The only operation of the save on
    the document path is the rename of the temporary file, after the
    whole document has been written to it. *)
Theorem save_is_all_or_nothing
    (self : ConfigSession) (io : save_io) (s : state) (r : result unit) (s' : state) :
  _readonly self = false →
  io_tmp io ≠ Some (_path self) →
  __exit__ serialize_value self io s = (r, s') →
  ∃ evs, st_log s' = st_log s ++ evs ∧
    (∀ ev, ev ∈ evs → changes ev (_path self) →
       ∃ tmp doc,
         (updated_document serialize_value self s).1 = Ok doc ∧
         evs = [EvCreate tmp; EvWrite tmp (Json doc);
                EvReplace tmp (_path self) (Data (Json doc))] ∧
         ev = EvReplace tmp (_path self) (Data (Json doc))) ∧
    match r with
    | Ok _ =>
        ∃ doc, (updated_document serialize_value self s).1 = Ok doc ∧
               st_fs s' = <[_path self := Data (Json doc)]> (st_fs s)
    | Raise _ => st_fs s' = st_fs s
    end.
Proof.
  intros Hro Htmp H.
  apply exit_inv in H as [(e & Hdoc & ->)|(doc & s1 & Hdoc & H)].
  - destruct (updated_document_state self _ _ _ Hdoc) as (Hfs & Hlog & Hinst).
    exists []. rewrite app_nil_r. split; [done|]. split; [|done].
    intros ev Hev. by apply elem_of_nil in Hev.
  - rewrite Hro in H.
    destruct (updated_document_state self _ _ _ Hdoc) as (Hfs & Hlog & Hinst).
    apply persist_cases in H as (_ & _ & evs & Hevs & Hcase).
    exists evs. split; [by rewrite Hevs, Hlog|].
    destruct Hcase as [(-> & Hfs' & tmp & Hio & ->)|(e & -> & Hfs' & Hevs')].
    + split.
      * intros ev Hev Hch. exists tmp, doc. rewrite Hdoc. split; [done|].
        split; [done|].
        assert (tmp ≠ _path self) as Hne by congruence.
        rewrite !elem_of_cons in Hev.
        destruct Hev as [->|[->|[->|Hev]]]; simpl in Hch;
          [done | done | done | by apply elem_of_nil in Hev].
      * exists doc. rewrite Hdoc. split; [done|]. by rewrite Hfs', Hfs.
    + split; [|by rewrite Hfs', Hfs].
      intros ev Hev Hch. exfalso.
      destruct Hevs' as [->|(tmp & c & Hio & ->)]; [by apply elem_of_nil in Hev|].
      assert (tmp ≠ _path self) as Hne by congruence.
      rewrite !elem_of_cons in Hev.
      destruct Hev as [->|[->|[->|Hev]]]; simpl in Hch;
        [done | done | done | by apply elem_of_nil in Hev].
Qed.

(** C8 — The save of a read-only session does not change the file
    system and performs no operation on it, whatever the instance holds. *)
Theorem readonly_save_writes_nothing
    (self : ConfigSession) (io : save_io) (s : state) (r : result unit) (s' : state) :
  _readonly self = true →
  __exit__ serialize_value self io s = (r, s') →
  st_fs s' = st_fs s ∧ st_log s' = st_log s.
Proof.
  intros Hro H.
  apply exit_inv in H as [(e & Hdoc & ->)|(doc & s1 & Hdoc & H)].
  - by destruct (updated_document_state self _ _ _ Hdoc) as (? & ? & _).
  - rewrite Hro in H. destruct H as [_ ->].
    by destruct (updated_document_state self _ _ _ Hdoc) as (? & ? & _).
Qed.

(** *** The new block *)

(** One turn of the loop of [__exit__]. *)
Lemma save_field_step self block key s :
  is_Some (_field_types self !! key) →
  save_field serialize_value self block key s =
  match save_attempt serialize_value self (st_inst s) key with
  | Some (Ok encoded) => (Ok (Dict.set block key encoded), s)
  | Some (Raise e) =>
      (Ok block,
       State (st_fs s) (st_log s)
             (st_out s ++ [SaveSkip (_class_key self) key e]) (st_inst s))
  | None => (Ok block, s)
  end.
Proof.
  intros [ty Hty]. unfold save_field, save_attempt, field_type_of,
    get_instance_attr. unfold_monad. rewrite Hty.
  destruct (getattr (st_inst s) key) as [v|]; [|done].
  by destruct (serialize_value v ty).
Qed.

(** The loop of [__exit__] over fields that all have a declared type: it
    completes, and the block holds the encoded value of exactly the
    fields that could be read and encoded. *)
Lemma build_block_spec self fields block s :
  (∀ k, k ∈ fields → is_Some (_field_types self !! k)) →
  ∃ block' s',
    build_block serialize_value self fields block s = (Ok block', s') ∧
    st_fs s' = st_fs s ∧ st_log s' = st_log s ∧ st_inst s' = st_inst s ∧
    st_out s' = st_out s ++ omap (save_skip serialize_value self (st_inst s)) fields ∧
    ∀ k, Dict.get block' k =
         if decide (k ∈ fields) then
           match save_attempt serialize_value self (st_inst s) k with
           | Some (Ok encoded) => Some encoded
           | _ => Dict.get block k
           end
         else Dict.get block k.
Proof.
  revert block s. induction fields as [|key fields IH]; intros block s Hft.
  - exists block, s. simpl. unfold_monad. rewrite app_nil_r.
    repeat split; done.
  - simpl. unfold mbind, M_bind.
    rewrite save_field_step by (apply Hft; apply list_elem_of_here).
    assert (∀ k, k ∈ fields → is_Some (_field_types self !! k)) as Hft'.
    { intros k Hk. apply Hft. by apply list_elem_of_further. }
    unfold save_skip at 1.
    destruct (save_attempt serialize_value self (st_inst s) key)
      as [[encoded|e]|] eqn:Hatt.
    + destruct (IH (Dict.set block key encoded) s Hft')
        as (block' & s' & Hrun & Hfs & Hlog & Hinst & Hout & Hget).
      exists block', s'. repeat split; try done.
      intros k. rewrite Hget. destruct (decide (k = key)) as [->|Hne].
      * rewrite Hatt, Dict_get_set_eq. rewrite (decide_True (P := key ∈ key :: fields))
          by apply list_elem_of_here. by destruct (decide (key ∈ fields)).
      * rewrite Dict_get_set_ne by done.
        destruct (decide (k ∈ fields)) as [Hin|Hnin].
        -- by rewrite decide_True by (by apply list_elem_of_further).
        -- rewrite decide_False; [done|]. rewrite elem_of_cons. by intros [?|?].
    + set (s1 := State _ _ _ _).
      destruct (IH block s1 Hft')
        as (block' & s' & Hrun & Hfs & Hlog & Hinst & Hout & Hget).
      exists block', s'. repeat split; try done.
      * rewrite Hout. simpl. by rewrite <- app_assoc.
      * intros k. rewrite Hget. simpl. destruct (decide (k = key)) as [->|Hne].
        -- rewrite Hatt. rewrite (decide_True (P := key ∈ key :: fields))
             by apply list_elem_of_here. by destruct (decide (key ∈ fields)).
        -- destruct (decide (k ∈ fields)) as [Hin|Hnin].
           ++ by rewrite decide_True by (by apply list_elem_of_further).
           ++ rewrite decide_False; [done|]. rewrite elem_of_cons. by intros [?|?].
    + destruct (IH block s Hft')
        as (block' & s' & Hrun & Hfs & Hlog & Hinst & Hout & Hget).
      exists block', s'. repeat split; try done.
      intros k. rewrite Hget. destruct (decide (k = key)) as [->|Hne].
      * rewrite Hatt. rewrite (decide_True (P := key ∈ key :: fields))
          by apply list_elem_of_here. by destruct (decide (key ∈ fields)).
      * destruct (decide (k ∈ fields)) as [Hin|Hnin].
        -- by rewrite decide_True by (by apply list_elem_of_further).
        -- rewrite decide_False; [done|]. rewrite elem_of_cons. by intros [?|?].
Qed.

Lemma load_class_config_state self s : (load_class_config self s).2 = s.
Proof.
  destruct (load_class_config self s) as [r s'] eqn:H.
  by apply (load_class_config_preserves id) in H.
Qed.

(** [__enter__], when the block of the class is a mapping and every field
    has a declared type. *)
Lemma enter_spec self cfg s :
  NoDup (_fields_to_inject self) →
  (∀ k, k ∈ _fields_to_inject self → is_Some (_field_types self !! k)) →
  (load_class_config self s).1 = Ok (VDict cfg) →
  ∃ s', __enter__ deserialize_value self s = (Ok tt, s') ∧
    inst_class (st_inst s') = inst_class (st_inst s) ∧
    st_out s' = st_out s
                ++ omap (load_warning deserialize_value self cfg (st_inst s))
                        (_fields_to_inject self) ∧
    (∀ k, k ∈ _fields_to_inject self →
       inst_dict (st_inst s') !! k =
       match load_attempt deserialize_value self cfg (st_inst s) k with
       | Some (Ok v) => inst_dict (after_assign (st_inst s) k v) !! k
       | _ => inst_dict (st_inst s) !! k
       end).
Proof.
  intros Hnd Hft Hcfg.
  destruct (inject_fields_spec self cfg _ s Hnd Hft)
    as (s' & Hrun & _ & _ & Hcls & Hout & _ & Hin).
  exists s'. split; [|done].
  unfold __enter__, inject_fields, mbind, M_bind.
  pose proof (load_class_config_state self s) as Hst.
  destruct (load_class_config self s) as [r s0]. simpl in *. by subst.
Qed.

Lemma updated_document_inv self s doc s2 :
  updated_document serialize_value self s = (Ok doc, s2) →
  ∃ d block s1,
    reread self s = (Ok (VDict d), s1) ∧
    build_block serialize_value self (_fields_to_inject self) [] s1
      = (Ok block, s2) ∧
    doc = VDict (Dict.set d (_class_key self) (VDict block)).
Proof.
  unfold updated_document. intros H.
  apply bind_inv in H as [(full & s1 & Hread & H)|(e & _ & ?)]; [|done].
  apply bind_inv in H as [(block & s2' & Hblock & H)|(e & _ & ?)]; [|done].
  unfold lift, py_setitem in H.
  destruct full as [| | | | |d| |]; inversion H; subst. by exists d, block, s1.
Qed.

(** C3 — The document that a save writes maps every class key other
    than the key of the session to the block that was read for it at
    exit time, and the key of the session to the new block. *)
Theorem save_keeps_other_classes
    (self : ConfigSession) (io : save_io) (s s' : state) :
  _readonly self = false →
  __exit__ serialize_value self io s = (Ok tt, s') →
  ∃ d block s1 s2 d',
    reread self s = (Ok (VDict d), s1) ∧
    build_block serialize_value self (_fields_to_inject self) [] s1
      = (Ok block, s2) ∧
    st_fs s' !! _path self = Some (Data (Json (VDict d'))) ∧
    (∀ k, k ≠ _class_key self → Dict.get d' k = Dict.get d k) ∧
    Dict.get d' (_class_key self) = Some (VDict block).
Proof.
  intros Hro H.
  apply exit_inv in H as [(e & _ & ?)|(doc & s2 & Hdoc & H)]; [done|].
  rewrite Hro in H.
  apply updated_document_inv in Hdoc as (d & block & s1 & Hread & Hblock & ->).
  apply persist_cases in H as (_ & _ & evs & _ & Hcase).
  destruct Hcase as [(_ & Hfs & _)|(e & ? & _)]; [|done].
  exists d, block, s1, s2, (Dict.set d (_class_key self) (VDict block)).
  split; [done|]. split; [done|]. split; [by rewrite Hfs, lookup_insert_eq|].
  split; [|apply Dict_get_set_eq].
  intros k Hk. by apply Dict_get_set_ne.
Qed.

(** When the document read is a mapping, every field has a declared type
    and nothing fails in the write, the save completes. *)
Lemma save_completes self io s d s1 tmp :
  (∀ k, k ∈ _fields_to_inject self → is_Some (_field_types self !! k)) →
  reread self s = (Ok (VDict d), s1) →
  io_tmp io = Some tmp → st_fs s !! tmp = None →
  io_write_ok io = true → io_replace_ok io = true →
  (∀ doc, (updated_document serialize_value self s).1 = Ok doc →
          json_serialisable doc = true) →
  ∃ s', __exit__ serialize_value self io s = (Ok tt, s').
Proof.
  intros Hft Hread Htmp Hfresh Hw Hr Hj.
  destruct (build_block_spec self (_fields_to_inject self) [] s1 Hft)
    as (block & s2 & Hblock & Hfs2 & _).
  assert (updated_document serialize_value self s
          = (Ok (VDict (Dict.set d (_class_key self) (VDict block))), s2)) as Hdoc.
  { unfold updated_document, mbind, M_bind. by rewrite Hread, Hblock. }
  unfold __exit__, mbind, M_bind. rewrite Hdoc.
  destruct (_readonly self); simpl; [by eexists|].
  apply (persist_completes self io _ tmp); try done.
  - rewrite Hfs2. apply (reread_preserves st_fs) in Hread. by rewrite Hread.
  - apply Hj. by rewrite Hdoc.
Qed.

Lemma load_warning_inv self cfg inst key d :
  load_warning deserialize_value self cfg inst key = Some d →
  ∃ e, d = LoadWarning (_class_key self) key e ∧
       load_attempt deserialize_value self cfg inst key = Some (Raise e).
Proof.
  unfold load_warning. destruct (load_attempt _ _ _ _ _) as [[v|e]|]; try done.
  intros [= <-]. by exists e.
Qed.

Lemma save_skip_inv self inst key d :
  save_skip serialize_value self inst key = Some d →
  ∃ e, d = SaveSkip (_class_key self) key e ∧
       save_attempt serialize_value self inst key = Some (Raise e).
Proof.
  unfold save_skip. destruct (save_attempt _ _ _ _) as [[v|e]|]; try done.
  intros [= <-]. by exists e.
Qed.

(** C5 — In the load phase, a field of the injectable set that the
    instance lacks is skipped without a diagnostic and stays absent.
    For a field that the instance has, the raw value is the value of the
    class's block when the block has the field, else the current value
    of the instance; when the codec decodes it with the declared type of
    the field, the decoded value is assigned to the attribute. *)
Theorem load_assigns_decoded_values
    (self : ConfigSession) (cfg : Dict.t pyval) (s : state) :
  NoDup (_fields_to_inject self) →
  (∀ k, k ∈ _fields_to_inject self → is_Some (_field_types self !! k)) →
  (load_class_config self s).1 = Ok (VDict cfg) →
  ∃ s' printed,
    __enter__ deserialize_value self s = (Ok tt, s') ∧
    st_out s' = st_out s ++ printed ∧
    ∀ key, key ∈ _fields_to_inject self →
      match getattr (st_inst s) key with
      | None =>
          getattr (st_inst s') key = None ∧
          inst_dict (st_inst s') !! key = inst_dict (st_inst s) !! key ∧
          ∀ d, d ∈ printed → diag_key d ≠ key
      | Some current =>
          ∀ field_type injected_val assigned,
            _field_types self !! key = Some field_type →
            let raw_val := match Dict.get cfg key with
                           | Some persisted => persisted
                           | None => current
                           end in
            deserialize_value raw_val field_type = Ok injected_val →
            setattr (st_inst s) key injected_val = Ok assigned →
            getattr (st_inst s') key = getattr assigned key ∧
            (cls_setattr (inst_class (st_inst s)) = None →
             getattr (st_inst s') key = Some injected_val)
      end.
Proof.
  intros Hnd Hft Hcfg.
  destruct (enter_spec self cfg s Hnd Hft Hcfg) as (s' & Hrun & Hcls & Hout & Hin).
  exists s', (omap (load_warning deserialize_value self cfg (st_inst s))
                   (_fields_to_inject self)).
  split; [done|]. split; [done|]. intros key Hkey.
  specialize (Hin key Hkey).
  destruct (getattr (st_inst s) key) as [current|] eqn:Hget.
  - intros ty v i Hty raw Hdec Hset.
    assert (load_attempt deserialize_value self cfg (st_inst s) key = Some (Ok v))
      as Hatt.
    { unfold load_attempt. rewrite Hget, Hty. subst raw.
      destruct (Dict.get cfg key); simpl in *; by rewrite Hdec, Hset. }
    rewrite Hatt in Hin. apply setattr_ok in Hset as ->.
    assert (getattr (st_inst s') key
            = getattr (after_assign (st_inst s) key v) key) as Heq.
    { apply getattr_congr; [by rewrite after_assign_class | done]. }
    split; [done|]. intros Hnone. rewrite Heq.
    unfold after_assign, getattr. rewrite Hnone. simpl.
    by rewrite lookup_insert_eq.
  - assert (load_attempt deserialize_value self cfg (st_inst s) key = None)
      as Hatt by (unfold load_attempt; by rewrite Hget).
    rewrite Hatt in Hin. split; [|split; [done|]].
    + rewrite <- Hget. by apply getattr_congr.
    + intros d Hd Hk. apply list_elem_of_omap in Hd as (x & _ & Hx).
      apply load_warning_inv in Hx as (e & -> & Hx). simpl in Hk. subst x.
      congruence.
Qed.

(** C6 — A codec failure stays with its field.  In the load phase, a
    field whose decoding fails keeps its value and a warning is printed
    for it, while every field that decodes is assigned; the phase
    completes.  In the save phase, a field whose encoding fails is left
    out of the new block and a diagnostic is printed for it, while every
    field that encodes is in the block; the loop completes. *)
Theorem codec_failures_stay_with_their_field
    (self : ConfigSession) (cfg : Dict.t pyval) (s : state) :
  NoDup (_fields_to_inject self) →
  (∀ k, k ∈ _fields_to_inject self → is_Some (_field_types self !! k)) →
  (load_class_config self s).1 = Ok (VDict cfg) →
  (∃ s', __enter__ deserialize_value self s = (Ok tt, s') ∧
     ∀ key current field_type,
       key ∈ _fields_to_inject self →
       getattr (st_inst s) key = Some current →
       _field_types self !! key = Some field_type →
       match deserialize_value (default current (Dict.get cfg key)) field_type with
       | Raise e =>
           getattr (st_inst s') key = Some current ∧
           LoadWarning (_class_key self) key e ∈ st_out s'
       | Ok injected_val =>
           cls_setattr (inst_class (st_inst s)) = None →
           getattr (st_inst s') key = Some injected_val
       end) ∧
  (∃ class_block s',
     build_block serialize_value self (_fields_to_inject self) [] s
       = (Ok class_block, s') ∧
     ∀ key val field_type,
       key ∈ _fields_to_inject self →
       getattr (st_inst s) key = Some val →
       _field_types self !! key = Some field_type →
       match serialize_value val field_type with
       | Raise e =>
           Dict.get class_block key = None ∧
           SaveSkip (_class_key self) key e ∈ st_out s'
       | Ok encoded => Dict.get class_block key = Some encoded
       end).
Proof.
  intros Hnd Hft Hcfg. split.
  - destruct (enter_spec self cfg s Hnd Hft Hcfg) as (s' & Hrun & Hcls & Hout & Hin).
    exists s'. split; [done|]. intros key current ty Hkey Hget Hty.
    specialize (Hin key Hkey).
    destruct (deserialize_value _ ty) as [v|e] eqn:Hdec.
    + intros Hnone.
      assert (load_attempt deserialize_value self cfg (st_inst s) key = Some (Ok v))
        as Hatt.
      { unfold load_attempt, setattr. by rewrite Hget, Hty, Hdec, Hnone. }
      rewrite Hatt in Hin. unfold getattr. rewrite Hin.
      unfold after_assign. rewrite Hnone. simpl. by rewrite lookup_insert_eq.
    + assert (load_attempt deserialize_value self cfg (st_inst s) key
              = Some (Raise e)) as Hatt.
      { unfold load_attempt. by rewrite Hget, Hty, Hdec. }
      rewrite Hatt in Hin. split.
      * rewrite <- Hget. by apply getattr_congr.
      * rewrite Hout. apply elem_of_app. right. apply list_elem_of_omap.
        exists key. split; [done|]. unfold load_warning. by rewrite Hatt.
  - destruct (build_block_spec self (_fields_to_inject self) [] s Hft)
      as (block & s' & Hrun & _ & _ & _ & Hout & Hblock).
    exists block, s'. split; [done|]. intros key val ty Hkey Hget Hty.
    specialize (Hblock key). rewrite decide_True in Hblock by done.
    assert (save_attempt serialize_value self (st_inst s) key
            = Some (serialize_value val ty)) as Hatt.
    { unfold save_attempt. by rewrite Hty, Hget. }
    rewrite Hatt in Hblock.
    destruct (serialize_value val ty) as [encoded|e] eqn:Henc; [done|].
    split; [done|]. rewrite Hout. apply elem_of_app. right.
    apply list_elem_of_omap. exists key. split; [done|].
    unfold save_skip. by rewrite Hatt.
Qed.

End Session.

(** ** The document file at load time *)

Lemma exists_of_file (fs : gmap string file) p f :
  fs !! p = Some f → bool_decide (is_Some (fs !! p)) = true.
Proof. intros H. apply bool_decide_eq_true. eauto. Qed.

Lemma exists_of_no_file (fs : gmap string file) p :
  fs !! p = None → bool_decide (is_Some (fs !! p)) = false.
Proof. intros H. apply bool_decide_eq_false. rewrite H. by intros [? ?]. Qed.

Section Load.

Variable deserialize_value : pyval → pytype → result pyval.

(** The states of the document file that the load phase recovers from:
    no file, text that is not JSON, a failing read. *)
Lemma load_class_config_recovers self s :
  st_fs s !! _path self = None ∨
  st_fs s !! _path self = Some (Data NotJson) ∨
  st_fs s !! _path self = Some (Data ReadError) →
  load_class_config self s = (Ok (VDict []), s).
Proof.
  unfold load_class_config, open_read. unfold_monad. cbn beta.
  intros [H|[H|H]].
  - by rewrite (exists_of_no_file _ _ H).
  - rewrite (exists_of_file _ _ _ H), H. done.
  - rewrite (exists_of_file _ _ _ H), H. done.
Qed.

(** A document that is JSON: the block of the class, by [get]. *)
Lemma load_class_config_json self s v :
  st_fs s !! _path self = Some (Data (Json v)) →
  load_class_config self s = (py_get v (_class_key self) (VDict []), s).
Proof.
  unfold load_class_config, open_read. unfold_monad. cbn beta. intros H.
  rewrite (exists_of_file _ _ _ H), H.
  destruct v; reflexivity.
Qed.

(** Bytes that are not UTF-8: neither [JSONDecodeError] nor [OSError]. *)
Lemma load_class_config_not_utf8 self s :
  st_fs s !! _path self = Some (Data NotUtf8) →
  load_class_config self s
  = (Raise (Exn UnicodeDecodeError "invalid start byte"), s).
Proof.
  unfold load_class_config, open_read. unfold_monad. cbn beta. intros H.
  by rewrite (exists_of_file _ _ _ H), H.
Qed.

(** C4 — A document file that exists and cannot be opened: [__enter__]
    opens it outside its [try] and raises [OSError], while [__exit__]
    opens it inside its [try] and takes the document to be empty. *)
Theorem load_raises_when_the_file_cannot_be_opened
    (self : ConfigSession) (s : state) :
  st_fs s !! _path self = Some Denied →
  __enter__ deserialize_value self s
    = (Raise (Exn OSError "Permission denied"), s) ∧
  reread self s = (Ok (VDict []), s).
Proof.
  intros H. unfold __enter__, load_class_config, reread, open_read.
  unfold_monad. cbn beta.
  by rewrite (exists_of_file _ _ _ H), H.
Qed.

End Load.

(** ** The exceptions of the two phases *)

Ltac pick_class :=
  simpl; first [by left | by right; left | by right; right; left
               | by right; right; right].

Lemma raises_only_bind {A B} (m : M A) (f : A → M B) P :
  raises_only m P → (∀ a, raises_only (f a) P) → raises_only (m ≫= f) P.
Proof.
  intros Hm Hf s e s' H.
  apply bind_inv in H as [(a & s1 & _ & H)|(e' & H & [= <-])].
  - by apply (Hf a _ _ _ H).
  - by apply (Hm _ _ _ H).
Qed.

Lemma raises_only_ret {A} (a : A) P : raises_only (mret a) P.
Proof. intros s e s' H. unfold_monad. by inversion H. Qed.

Lemma raises_only_gets {A} (f : state → A) P : raises_only (gets f) P.
Proof. intros s e s' H. unfold_monad. by inversion H. Qed.

Lemma raises_only_lift {A} (r : result A) (P : exn → Prop) :
  (∀ e, r = Raise e → P e) → raises_only (lift r) P.
Proof. intros Hr s e s' H. unfold_monad. inversion H; subst. by apply Hr. Qed.

Lemma raises_only_raise {A} e (P : exn → Prop) : P e → raises_only (@raise A e) P.
Proof. intros He s e' s' H. unfold_monad. by inversion H; subst. Qed.

(** A [try] that catches every exception raises what its handler does. *)
Lemma raises_only_try_all {A} (body : M A) handler P :
  (∀ e, raises_only (handler e) P) →
  raises_only (try_except body is_exception handler) P.
Proof.
  intros Hh s e s' H. unfold try_except in H.
  destruct (body s) as [[a|e0] s1]; [done|].
  simpl in H. by apply (Hh _ _ _ _ H).
Qed.

Lemma raises_only_try {A} (body : M A) catches handler (P : exn → Prop) :
  raises_only body (λ e, catches e = false → P e) →
  (∀ e, raises_only (handler e) P) →
  raises_only (try_except body catches handler) P.
Proof.
  intros Hb Hh s e s' H. unfold try_except in H.
  destruct (body s) as [[a|e0] s1] eqn:Hbody; [done|].
  destruct (catches e0) eqn:Hc.
  - by apply (Hh _ _ _ _ H).
  - inversion H; subst. by apply (Hb _ _ _ Hbody).
Qed.

Lemma raises_only_for_each {A} (l : list A) body P :
  (∀ x, raises_only (body x) P) → raises_only (for_each l body) P.
Proof.
  intros Hb. induction l as [|x l IH]; simpl.
  - apply raises_only_ret.
  - apply raises_only_bind; [apply Hb | intros _; apply IH].
Qed.

Lemma raises_only_print d P : raises_only (print d) P.
Proof. intros s e s' H. unfold_monad. by inversion H. Qed.

Lemma raises_only_open_read p (P : exn → Prop) :
  (∀ e, exn_class e = OSError → P e) → raises_only (open_read p) P.
Proof.
  intros HP s e s' H. unfold open_read in H.
  destruct (st_fs s !! p) as [[|c]|]; inversion H; subst; by apply HP.
Qed.

Lemma py_get_raises v key dflt e :
  py_get v key dflt = Raise e → exn_class e = AttributeError.
Proof. destruct v; simpl; intros [= <-]; done. Qed.

Lemma py_setitem_raises v key x e :
  py_setitem v key x = Raise e → exn_class e = TypeError.
Proof. destruct v; simpl; intros [= <-]; done. Qed.

Lemma json_load_raises c e :
  json_load c = Raise e → is_json_or_os_error e = false →
  exn_class e = UnicodeDecodeError.
Proof. destruct c; simpl; intros [= <-]; done. Qed.

Section Phases.

Variable serialize_value : pyval → pytype → result pyval.
Variable deserialize_value : pyval → pytype → result pyval.

Lemma field_type_of_raises self key e :
  field_type_of self key = Raise e → exn_class e = KeyError.
Proof.
  unfold field_type_of. destruct (_field_types self !! key); intros [= <-]; done.
Qed.

(** The load phase raises no exception of the codec or of [setattr]. *)
Lemma enter_raises self : raises_only (__enter__ deserialize_value self) load_errors.
Proof.
  unfold __enter__, load_errors.
  apply raises_only_bind.
  - unfold load_class_config, path_exists.
    apply raises_only_bind; [apply raises_only_gets|].
    intros [|]; [|apply raises_only_ret].
    apply raises_only_bind; [apply raises_only_open_read; by left|]. intros c.
    apply raises_only_try; [|intros _; apply raises_only_ret].
    apply raises_only_bind.
    + apply raises_only_lift. intros e He Hc. right. left.
      by apply (json_load_raises c).
    + intros v. apply raises_only_lift. intros e He _. right. right. left.
      by apply py_get_raises in He.
  - intros cfg. unfold inject_fields. apply raises_only_for_each. intros key.
    unfold inject_field.
    apply raises_only_bind; [apply raises_only_gets|].
    intros [|]; [|apply raises_only_ret].
    apply raises_only_bind.
    { intros s e s' H. unfold get_instance_attr in H.
      destruct (getattr _ _); inversion H; subst. pick_class. }
    intros dv. apply raises_only_bind.
    { apply raises_only_lift. intros e He. apply field_type_of_raises in He. pick_class. }
    intros ty. apply raises_only_bind.
    { apply raises_only_lift. intros e He. apply py_get_raises in He. pick_class. }
    intros raw. apply raises_only_try_all. intros e. apply raises_only_print.
Qed.

Lemma persist_raises self io doc : raises_only (persist self io doc) save_errors.
Proof.
  intros s e s'. unfold save_errors.
  unfold persist, mkstemp, dump_to, os_replace, os_unlink, with_fs.
  unfold_monad.
  destruct (io_tmp io) as [tmp|]; simpl; [|intros [= <- _]; pick_class].
  destruct (st_fs s !! tmp); simpl; [intros [= <- _]; pick_class|].
  destruct (json_serialisable doc); [destruct (io_write_ok io)|]; simpl;
    rewrite ?lookup_insert_eq; simpl.
  - destruct (io_replace_ok io); simpl; [done|].
    rewrite lookup_insert_eq. simpl. intros [= <- _]; pick_class.
  - intros [= <- _]; pick_class.
  - intros [= <- _]; pick_class.
Qed.

(** The save phase raises no exception of the codec. *)
Lemma exit_raises self io :
  raises_only (__exit__ serialize_value self io) save_errors.
Proof.
  unfold __exit__.
  apply raises_only_bind.
  - unfold updated_document. apply raises_only_bind.
    + unfold reread, path_exists, save_errors.
      apply raises_only_bind; [apply raises_only_gets|].
      intros [|]; [|apply raises_only_ret].
      apply raises_only_try; [|intros _; apply raises_only_ret].
      apply raises_only_bind.
      * apply raises_only_open_read. intros e He. by left.
      * intros c. apply raises_only_lift. intros e He Hc. right. left.
        by apply (json_load_raises c).
    + intros full. apply raises_only_bind.
      * generalize (@nil (string * pyval)).
        induction (_fields_to_inject self) as [|key fields IH]; intros block; simpl.
        -- apply raises_only_ret.
        -- apply raises_only_bind; [|intros b; apply IH].
           unfold save_field. apply raises_only_bind.
           ++ apply raises_only_lift. intros e He.
              apply field_type_of_raises in He. unfold save_errors. pick_class.
           ++ intros ty. apply raises_only_try_all. intros e.
              apply raises_only_bind; [apply raises_only_print|].
              intros _. apply raises_only_ret.
      * intros block. apply raises_only_lift. intros e He.
        apply py_setitem_raises in He. unfold save_errors. pick_class.
  - intros doc. destruct (_readonly self); simpl;
      [apply raises_only_ret | apply persist_raises].
Qed.

End Phases.

(** ** The decorator *)

(** A call of [protect] with the two arguments it declares raises the
    error it was written for. *)
Lemma protect_with_two_arguments name value :
  call protect [VStr name; value]
  = Raise (Exn AttributeError
             ("property " ++ name
              ++ " cannot set, because this class is read-only.")%string).
Proof. reflexivity. Qed.

(** An assignment on an instance calls [__setattr__] with the instance,
    the name and the value: three arguments for the two parameters of
    [protect]. *)
Lemma setattr_protected inst name value :
  cls_setattr (inst_class inst) = Some protect →
  setattr inst name value = Raise protect_arity_error.
Proof. intros H. unfold setattr. rewrite H. reflexivity. Qed.

Lemma call_installs_protect conf at_ config_file cls :
  cls_setattr (__call__ (Inject__init__ conf at_ config_file true) cls)
  = Some protect.
Proof. reflexivity. Qed.

(** C9 — On an instance of a class decorated with the read-only flag,
    every assignment raises and leaves the instance as it is; the
    exception is the [TypeError] of calling [protect] with three
    arguments, not the [AttributeError] that [protect] raises when it is
    called with its two parameters. *)
Theorem readonly_assignment_raises_type_error
    (conf : string) (at_ : option (gset string)) (config_file : option string)
    (cls : class) (d : gmap string pyval) (name : string) (value : pyval) :
  let decorated := __call__ (Inject__init__ conf at_ config_file true) cls in
  setattr (Instance decorated d) name value
    = Raise (Exn TypeError
               ("Inject.__protect_class.<locals>.protect() "
                ++ "takes 2 positional arguments but 3 were given")%string) ∧
  set_instance_attr name value (State ∅ [] [] (Instance decorated d))
    = (Raise (Exn TypeError
                ("Inject.__protect_class.<locals>.protect() "
                 ++ "takes 2 positional arguments but 3 were given")%string),
       State ∅ [] [] (Instance decorated d)) ∧
  call protect [VStr name; value]
    = Raise (Exn AttributeError
               ("property " ++ name
                ++ " cannot set, because this class is read-only.")%string).
Proof. repeat split. Qed.

Section Decorator.

Variable serialize_value : pyval → pytype → result pyval.
Variable deserialize_value : pyval → pytype → result pyval.
Variable _CONF_FILE : string.

(** On an instance of a protected class, one turn of the loop of
    [__enter__] leaves the instance as it is. *)
Lemma inject_field_protected self class_config key :
  ∀ s r s',
    cls_setattr (inst_class (st_inst s)) = Some protect →
    inject_field deserialize_value self class_config key s = (r, s') →
    st_inst s' = st_inst s.
Proof.
  intros s r s' Hp. unfold inject_field, get_instance_attr, set_instance_attr.
  unfold_monad. cbn beta.
  destruct (hasattr (st_inst s) key); [|by intros [= _ <-]].
  destruct (getattr (st_inst s) key) as [dv|]; [|by intros [= _ <-]].
  destruct (field_type_of self key) as [ty|e]; [|by intros [= _ <-]].
  destruct (py_get class_config key dv) as [raw|e]; [|by intros [= _ <-]].
  destruct (deserialize_value raw ty) as [v|e]; simpl.
  - rewrite (setattr_protected _ _ _ Hp). simpl. by intros [= _ <-].
  - by intros [= _ <-].
Qed.

Lemma inject_fields_protected self class_config fields :
  ∀ s r s',
    cls_setattr (inst_class (st_inst s)) = Some protect →
    for_each fields (inject_field deserialize_value self class_config) s = (r, s') →
    st_inst s' = st_inst s.
Proof.
  induction fields as [|key fields IH]; intros s r s' Hp H; simpl in H.
  - unfold_monad. by inversion H.
  - apply bind_inv in H as [(a & s1 & H1 & H2)|(e & H1 & _)].
    + pose proof (inject_field_protected _ _ _ _ _ _ Hp H1) as Hs1.
      rewrite <- Hs1. apply (IH _ _ _ ltac:(by rewrite Hs1) H2).
    + by apply (inject_field_protected _ _ _ _ _ _ Hp H1).
Qed.

Lemma enter_protected self s r s' :
  cls_setattr (inst_class (st_inst s)) = Some protect →
  __enter__ deserialize_value self s = (r, s') →
  st_inst s' = st_inst s.
Proof.
  intros Hp H. unfold __enter__ in H.
  apply bind_inv in H as [(cfg & s1 & H1 & H2)|(e & H1 & _)].
  - pose proof (load_class_config_preserves id _ _ _ _ H1) as Hs1.
    simpl in Hs1. subst s1. by apply (inject_fields_protected _ _ _ _ _ _ Hp H2).
  - pose proof (load_class_config_preserves id _ _ _ _ H1) as Hs1.
    simpl in Hs1. by subst s'.
Qed.

Lemma exit_keeps_instance self io s r s' :
  __exit__ serialize_value self io s = (r, s') → st_inst s' = st_inst s.
Proof.
  intros H. apply exit_inv in H as [(e & Hdoc & ->)|(doc & s1 & Hdoc & H)].
  - by destruct (updated_document_state _ _ _ _ _ Hdoc) as (_ & _ & ?).
  - destruct (updated_document_state _ _ _ _ _ Hdoc) as (_ & _ & Hi).
    destruct (_readonly self).
    + destruct H as [_ ->]. done.
    + apply persist_cases in H as (_ & Hi' & _). congruence.
Qed.

(** [field_types] is empty exactly when [valid_fields] is. *)
Lemma discover_empty cls explicit_fields instance_defaults :
  (_get_configurable_fields cls explicit_fields instance_defaults).1 = ∅ ↔
  (_get_configurable_fields cls explicit_fields instance_defaults).2 = ∅.
Proof.
  pose proof (discover_types_agree cls explicit_fields instance_defaults) as Ht.
  pose proof (discover_valid_fields cls explicit_fields instance_defaults) as Hv.
  destruct (_get_configurable_fields cls explicit_fields instance_defaults)
    as [ft vf]. simpl in *. unfold types_agree in Ht. simpl in Ht. split.
  - intros ->. apply set_eq. intros name. split; [|set_solver].
    intros Hin. specialize (Ht name). rewrite lookup_empty in Ht.
    rewrite decide_True in Ht by done.
    apply Hv in Hin as (_ & [ty Hty] & _). congruence.
  - intros ->. apply map_eq. intros name. rewrite Ht, lookup_empty.
    by rewrite decide_False by set_solver.
Qed.

Lemma new_init_unfold self cls original_init io s s0 :
  original_init s = (Ok tt, s0) →
  new_init serialize_value deserialize_value self cls original_init io s =
  if decide ((_get_configurable_fields cls (_fields self)
                (Some (collect_defaults cls))).1 = ∅)
  then (Raise (no_fields_error cls), s0)
  else (__enter__ deserialize_value (session_of self cls);;
        __exit__ serialize_value (session_of self cls) io) s0.
Proof.
  intros H0. unfold new_init, session_of.
  unfold mbind at 1. unfold M_bind at 1. rewrite H0.
  destruct (_get_configurable_fields cls (_fields self)
              (Some (collect_defaults cls))) as [ft vf]. simpl.
  by destruct (decide (ft = ∅)).
Qed.

(** C7 — After the original initialiser, [new_init] raises the
    [ValueError] that names the class when discovery yields no field,
    and nothing else happens; when discovery yields a field it runs the
    session, which raises no [ValueError]. *)
Theorem construction_fails_without_fields
    (self : Inject) (cls : class) (original_init : M unit) (io : save_io)
    (s s0 : state) :
  original_init s = (Ok tt, s0) →
  let valid_fields :=
    (_get_configurable_fields cls (_fields self)
       (Some (collect_defaults cls))).2 in
  (valid_fields = ∅ →
   new_init serialize_value deserialize_value self cls original_init io s
   = (Raise (no_fields_error cls), s0)) ∧
  (valid_fields ≠ ∅ →
   new_init serialize_value deserialize_value self cls original_init io s
   = (__enter__ deserialize_value (session_of self cls);;
      __exit__ serialize_value (session_of self cls) io) s0 ∧
   ∀ e s',
     new_init serialize_value deserialize_value self cls original_init io s
     = (Raise e, s') →
     exn_class e ≠ ValueError).
Proof.
  intros H0 valid_fields. rewrite (new_init_unfold _ _ _ _ _ _ H0).
  pose proof (discover_empty cls (_fields self) (Some (collect_defaults cls)))
    as Hempty.
  split.
  - intros Hv. apply Hempty in Hv. by rewrite decide_True.
  - intros Hv. rewrite decide_False by (intros Hft; by apply Hempty in Hft).
    split; [done|]. intros e s' H.
    apply bind_inv in H as [(a & s1 & _ & H)|(e' & H & [= <-])].
    + apply exit_raises in H. unfold save_errors in H.
      intros He. rewrite He in H. by destruct H as [H|[H|[H|H]]].
    + apply enter_raises in H. unfold load_errors in H.
      intros He. rewrite He in H. by destruct H as [H|[H|[H|H]]].
Qed.

(** C10 — [__call__] with the read-only flag installs [protect] as the
    [__setattr__] of the class before any instance is made.  Every
    assignment of the load phase then raises, inside the [try] of its
    field: the load phase raises no [TypeError], and the construction
    leaves the instance as the original initialiser made it, whatever
    the document holds. *)
Theorem readonly_construction_keeps_defaults
    (at_ : option (gset string)) (config_file : option string) (cls : class)
    (original_init : M unit) (io : save_io) (s s0 : state) (r0 : result unit) :
  let self := Inject__init__ _CONF_FILE at_ config_file true in
  let decorated := __call__ self cls in
  original_init s = (r0, s0) →
  inst_class (st_inst s0) = decorated →
  cls_setattr decorated = Some protect ∧
  (∀ key value,
     set_instance_attr key value s0 = (Raise protect_arity_error, s0)) ∧
  (∀ e s1,
     __enter__ deserialize_value (session_of self decorated) s0 = (Raise e, s1) →
     exn_class e ≠ TypeError) ∧
  (∀ r s',
     new_init serialize_value deserialize_value self decorated original_init io s
     = (r, s') →
     st_inst s' = st_inst s0).
Proof.
  intros self decorated H0 Hcls.
  assert (cls_setattr (inst_class (st_inst s0)) = Some protect) as Hp
    by (by rewrite Hcls).
  split; [done|]. split; [|split].
  - intros key value. unfold set_instance_attr.
    by rewrite (setattr_protected _ _ _ Hp).
  - intros e s1 H. apply enter_raises in H. unfold load_errors in H.
    intros He. rewrite He in H. by destruct H as [H|[H|[H|H]]].
  - intros r s' H. destruct r0 as [[]|e0].
    + rewrite (new_init_unfold _ _ _ _ _ _ H0) in H.
      destruct (decide _); [by inversion H|].
      apply bind_inv in H as [(a & s1 & H1 & H2)|(e' & H1 & _)].
      * apply exit_keeps_instance in H2. rewrite H2.
        by apply (enter_protected _ _ _ _ Hp H1).
      * by apply (enter_protected _ _ _ _ Hp H1).
    + unfold new_init in H. unfold mbind at 1 in H. unfold M_bind at 1 in H.
      rewrite H0 in H. by inversion H.
Qed.

End Decorator.

(** ** The decorator and the empty whitelist *)

(** [Inject.__init__] turns an empty [at] into no whitelist at all, so
    discovery is never called with an empty whitelist by the decorator. *)
Lemma inject_init_empty_whitelist conf config_file ro :
  _fields (Inject__init__ conf (Some ∅) config_file ro) = None.
Proof. reflexivity. Qed.

Lemma inject_init_whitelist conf fields config_file ro :
  fields ≠ ∅ →
  _fields (Inject__init__ conf (Some fields) config_file ro) = Some fields.
Proof. intros H. unfold Inject__init__. simpl. by rewrite decide_False. Qed.

(** ** Concrete runs *)

Ltac in_fields :=
  repeat first [apply list_elem_of_here | apply list_elem_of_further].

Ltac fields_typed :=
  let k := fresh "k" in let Hk := fresh "Hk" in
  intros k Hk; simpl in Hk; rewrite !elem_of_cons in Hk;
  repeat (destruct Hk as [->|Hk]; [eexists; vm_compute; reflexivity|]);
  by apply elem_of_nil in Hk.

(** The scenario of the specification: discovery on [Widget] yields
    [size] and [label], not [_private] and not [run]. *)
Example discovery_of_Widget :
  let r := _get_configurable_fields Widget.cls None
             (Some (collect_defaults Widget.cls)) in
  map_to_list r.1 = [("size", "int"); ("label", "str")] ∧
  elements r.2 = ["size"; "label"].
Proof. vm_compute. done. Qed.

Lemma load_raises_when_the_file_cannot_be_opened_witness :
  st_fs Widget.s_denied !! _path (Widget.session false) = Some Denied ∧
  __enter__ Widget.codec (Widget.session false) Widget.s_denied
    = (Raise (Exn OSError "Permission denied"), Widget.s_denied) ∧
  reread (Widget.session false) Widget.s_denied = (Ok (VDict []), Widget.s_denied).
Proof.
  split; [vm_compute; reflexivity|].
  apply (load_raises_when_the_file_cannot_be_opened Widget.codec
           (Widget.session false) Widget.s_denied).
  vm_compute; reflexivity.
Defined.

Lemma save_is_all_or_nothing_witness :
  let out := __exit__ Widget.codec (Widget.session false)
               Widget.io_rename_fails Widget.s42 in
  _readonly (Widget.session false) = false ∧
  io_tmp Widget.io_rename_fails ≠ Some (_path (Widget.session false)) ∧
  out.1 = Raise (Exn OSError "Permission denied") ∧
  st_fs out.2 = st_fs Widget.s42.
Proof.
  intros out.
  assert (out.1 = Raise (Exn OSError "Permission denied")) as E
    by (vm_compute; reflexivity).
  split; [reflexivity|]. split; [discriminate|]. split; [exact E|].
  destruct (save_is_all_or_nothing Widget.codec (Widget.session false)
              Widget.io_rename_fails Widget.s42 out.1 out.2)
    as (evs & _ & _ & H);
    [reflexivity | discriminate | vm_compute; reflexivity |].
  rewrite E in H. exact H.
Defined.

Lemma readonly_save_writes_nothing_witness :
  let out := __exit__ Widget.codec (Widget.session true) Widget.io_ok Widget.s42 in
  _readonly (Widget.session true) = true ∧
  st_fs out.2 = st_fs Widget.s42 ∧ st_log out.2 = st_log Widget.s42.
Proof.
  intros out. split; [reflexivity|].
  apply (readonly_save_writes_nothing Widget.codec (Widget.session true)
           Widget.io_ok Widget.s42 out.1 out.2);
    [reflexivity | vm_compute; reflexivity].
Defined.

Lemma save_keeps_other_classes_witness :
  let out := __exit__ Widget.codec (Widget.session false) Widget.io_ok Widget.s42 in
  _readonly (Widget.session false) = false ∧
  out = (Ok tt, out.2) ∧
  ∃ d', st_fs out.2 !! Widget.path = Some (Data (Json (VDict d'))) ∧
        Dict.get d' "Gadget" = Some (VDict [("n", VInt 1)]).
Proof.
  intros out.
  assert (out = (Ok tt, out.2)) as Hrun by (vm_compute; reflexivity).
  split; [reflexivity|]. split; [exact Hrun|].
  destruct (save_keeps_other_classes Widget.codec (Widget.session false)
              Widget.io_ok Widget.s42 out.2 eq_refl Hrun)
    as (d & block & s1 & s2 & d' & Hread & _ & Hfile & Hother & _).
  exists d'. split; [exact Hfile|].
  rewrite Hother by discriminate.
  vm_compute in Hread. injection Hread as <- _. reflexivity.
Defined.

Lemma load_assigns_decoded_values_witness :
  NoDup (_fields_to_inject (Widget.session false)) ∧
  (load_class_config (Widget.session false) Widget.s42).1
    = Ok (VDict [("size", VInt 42)]) ∧
  ∃ s', __enter__ Widget.codec (Widget.session false) Widget.s42 = (Ok tt, s') ∧
        getattr (st_inst s') "size" = Some (VInt 42).
Proof.
  assert (NoDup (_fields_to_inject (Widget.session false))) as Hnd
    by (apply (bool_decide_unpack _); vm_compute; exact I).
  assert ((load_class_config (Widget.session false) Widget.s42).1
          = Ok (VDict [("size", VInt 42)])) as Hcfg by (vm_compute; reflexivity).
  split; [exact Hnd|]. split; [exact Hcfg|].
  destruct (load_assigns_decoded_values Widget.codec (Widget.session false)
              [("size", VInt 42)] Widget.s42 Hnd ltac:(fields_typed) Hcfg)
    as (s' & printed & Hrun & _ & H).
  exists s'. split; [exact Hrun|].
  specialize (H "size" ltac:(in_fields)).
  assert (getattr (st_inst Widget.s42) "size" = Some (VInt 10)) as E
    by (vm_compute; reflexivity).
  rewrite E in H.
  apply (H "int" (VInt 42)
           (Instance Widget.cls (<["size" := VInt 42]> ∅)));
    vm_compute; reflexivity.
Defined.

Lemma codec_failures_stay_with_their_field_witness :
  NoDup (_fields_to_inject (Widget.session false)) ∧
  (load_class_config (Widget.session false) Widget.s_bad).1
    = Ok (VDict [("size", VStr "big"); ("label", VStr "x")]) ∧
  (∃ s', __enter__ Widget.codec (Widget.session false) Widget.s_bad = (Ok tt, s') ∧
         getattr (st_inst s') "size" = Some (VInt 10) ∧
         getattr (st_inst s') "label" = Some (VStr "x")) ∧
  (∃ class_block s',
     build_block Widget.codec (Widget.session false) ["size"; "label"] []
                 Widget.s_bad = (Ok class_block, s') ∧
     Dict.get class_block "size" = Some (VInt 10) ∧
     Dict.get class_block "label" = None).
Proof.
  assert (NoDup (_fields_to_inject (Widget.session false))) as Hnd
    by (apply (bool_decide_unpack _); vm_compute; exact I).
  assert ((load_class_config (Widget.session false) Widget.s_bad).1
          = Ok (VDict [("size", VStr "big"); ("label", VStr "x")])) as Hcfg
    by (vm_compute; reflexivity).
  split; [exact Hnd|]. split; [exact Hcfg|].
  destruct (codec_failures_stay_with_their_field Widget.codec Widget.codec
              (Widget.session false) [("size", VStr "big"); ("label", VStr "x")]
              Widget.s_bad Hnd ltac:(fields_typed) Hcfg)
    as [(s1 & Hrun1 & Hload) (block & s2 & Hrun2 & Hsave)].
  split.
  - exists s1. split; [exact Hrun1|]. split.
    + apply (Hload "size" (VInt 10) "int");
        [in_fields | vm_compute; reflexivity | vm_compute; reflexivity].
    + apply (Hload "label" (VInt 7) "str");
        [in_fields | vm_compute; reflexivity | vm_compute; reflexivity
        | vm_compute; reflexivity].
  - exists block, s2. split; [exact Hrun2|]. split.
    + apply (Hsave "size" (VInt 10) "int");
        [in_fields | vm_compute; reflexivity | vm_compute; reflexivity].
    + apply (Hsave "label" (VInt 7) "str");
        [in_fields | vm_compute; reflexivity | vm_compute; reflexivity].
Defined.

Lemma construction_fails_without_fields_witness :
  let s := Widget.start ∅ (Instance Widget.bare ∅) in
  (mret tt : M unit) s = (Ok tt, s) ∧
  new_init Widget.codec Widget.codec Widget.inject_rw Widget.bare (mret tt)
           Widget.io_ok s
  = (Raise (no_fields_error Widget.bare), s).
Proof.
  intros s. split; [reflexivity|].
  apply (construction_fails_without_fields Widget.codec Widget.codec
           Widget.inject_rw Widget.bare (mret tt) Widget.io_ok s s eq_refl).
  vm_compute. reflexivity.
Defined.

Lemma readonly_construction_keeps_defaults_witness :
  let decorated := __call__ Widget.inject_ro Widget.cls in
  let out := new_init Widget.codec Widget.codec Widget.inject_ro decorated
               (mret tt) Widget.io_ok Widget.s42_ro in
  (mret tt : M unit) Widget.s42_ro = (Ok tt, Widget.s42_ro) ∧
  inst_class (st_inst Widget.s42_ro) = decorated ∧
  st_inst out.2 = st_inst Widget.s42_ro ∧
  getattr (st_inst out.2) "size" = Some (VInt 10).
Proof.
  intros decorated out. split; [reflexivity|]. split; [reflexivity|].
  destruct (readonly_construction_keeps_defaults Widget.codec Widget.codec
              "simmc.json" None (Some Widget.path) Widget.cls (mret tt)
              Widget.io_ok Widget.s42_ro Widget.s42_ro (Ok tt)
              eq_refl eq_refl) as (_ & _ & _ & H).
  assert (st_inst out.2 = st_inst Widget.s42_ro) as E
    by (apply (H out.1 out.2); vm_compute; reflexivity).
  split; [exact E|]. rewrite E. vm_compute; reflexivity.
Defined.

(** * Further properties *)

(** ** Discovery *)

Lemma collect_defaults_lookup cls name :
  is_Some (collect_defaults cls !! name) ↔
  ∃ v, cls_attrs cls !! name = Some v ∧
       startswith_underscore name = false ∧ callable v = false.
Proof.
  unfold collect_defaults. split.
  - intros [v Hv]. apply map_lookup_filter_Some in Hv as [Hv [? ?]]. by exists v.
  - intros (v & Hv & ? & ?). exists v. by apply map_lookup_filter_Some.
Qed.

(** X1 — Discovery as the decorator calls it: a name is a field of the
    decorated class exactly when it is annotated, is a class attribute
    that is not callable, does not start with an underscore, and is in
    the [at] of the decorator when [at] is given and is not empty.  An
    annotation without a class attribute is no field, and an empty [at]
    selects like no [at]. *)
Theorem decorator_discovers_public_defaulted_fields
    (conf : string) (at_ : option (gset string)) (config_file : option string)
    (ro : bool) (cls : class) (name : string) :
  let self := Inject__init__ conf at_ config_file ro in
  name ∈ (_get_configurable_fields cls (_fields self)
            (Some (collect_defaults cls))).2 ↔
  match at_ with
  | Some whitelist => whitelist = ∅ ∨ name ∈ whitelist
  | None => True
  end ∧
  is_Some (cls_hints cls !! name) ∧
  (∃ v, cls_attrs cls !! name = Some v ∧ callable v = false) ∧
  startswith_underscore name = false.
Proof.
  intros self. rewrite discover_valid_fields. unfold passes_filters. simpl.
  rewrite collect_defaults_lookup. unfold class_getattr. split.
  - intros (Hc & Hh & (v & Hv & Hu & Hcall) & _ & _). split; [|by eauto].
    destruct at_ as [w|]; [|done]. simpl in Hc.
    destruct (decide (w = ∅)); [by left | by right].
  - intros (Hat & Hh & (v & Hv & Hcall) & Hu).
    split; [|split; [done|split; [by eauto|split; [done|by rewrite Hv]]]].
    destruct at_ as [w|]; simpl; [|done].
    destruct (decide (w = ∅)) as [->|Hne]; simpl; [done|].
    destruct Hat as [->|?]; done.
Qed.

(** X2 — A whitelist selects, among the fields that discovery finds
    without it, those it names: the set is the intersection, and the
    types are those of the selected names. *)
Theorem whitelist_selects_among_the_fields
    (cls : class) (whitelist : gset string)
    (instance_defaults : option (gmap string pyval)) :
  let all := _get_configurable_fields cls None instance_defaults in
  let some := _get_configurable_fields cls (Some whitelist) instance_defaults in
  some.2 = all.2 ∩ whitelist ∧
  ∀ name, some.1 !! name
          = if decide (name ∈ whitelist) then all.1 !! name else None.
Proof.
  intros all some. subst all some.
  set (all := _get_configurable_fields cls None instance_defaults).
  set (some := _get_configurable_fields cls (Some whitelist) instance_defaults).
  assert (∀ name, name ∈ some.2 ↔ name ∈ all.2 ∧ name ∈ whitelist) as Hset.
  { intros name. unfold some, all. rewrite !discover_valid_fields.
    unfold is_candidate, passes_filters. tauto. }
  pose proof (discover_types_agree cls (Some whitelist) instance_defaults) as Ts.
  pose proof (discover_types_agree cls None instance_defaults) as Ta.
  fold some in Ts. fold all in Ta. unfold types_agree in Ts, Ta.
  split.
  - apply set_eq. intros name. rewrite elem_of_intersection. apply Hset.
  - intros name. rewrite Ts, Ta. specialize (Hset name).
    destruct (decide (name ∈ some.2)), (decide (name ∈ whitelist)),
      (decide (name ∈ all.2)); tauto.
Qed.

(** X3 — Discovery looks at the names of [instance_defaults] only, never
    at the values. *)
Theorem discovery_ignores_the_default_values
    (cls : class) (explicit_fields : option (gset string))
    (defaults1 defaults2 : gmap string pyval) :
  dom defaults1 = dom defaults2 →
  _get_configurable_fields cls explicit_fields (Some defaults1)
  = _get_configurable_fields cls explicit_fields (Some defaults2).
Proof.
  intros Hdom.
  assert (∀ name, is_Some (defaults1 !! name) ↔ is_Some (defaults2 !! name)) as Hd.
  { intros name. by rewrite <- !elem_of_dom, Hdom. }
  pose proof (discover_valid_fields cls explicit_fields (Some defaults1)) as H1.
  pose proof (discover_valid_fields cls explicit_fields (Some defaults2)) as H2.
  pose proof (discover_types_agree cls explicit_fields (Some defaults1)) as T1.
  pose proof (discover_types_agree cls explicit_fields (Some defaults2)) as T2.
  destruct (_get_configurable_fields cls explicit_fields (Some defaults1))
    as [ft1 vf1].
  destruct (_get_configurable_fields cls explicit_fields (Some defaults2))
    as [ft2 vf2].
  unfold types_agree, passes_filters in *. simpl in *.
  assert (vf1 = vf2) as ->.
  { apply set_eq. intros name. rewrite H1, H2, Hd. done. }
  f_equal. apply map_eq. intros name. by rewrite T1, T2.
Qed.

(** X4 — Without [instance_defaults], or with an empty one, discovery
    finds nothing, whatever the class and the whitelist. *)
Theorem discovery_needs_defaults
    (cls : class) (explicit_fields : option (gset string)) :
  _get_configurable_fields cls explicit_fields None = (∅, ∅) ∧
  _get_configurable_fields cls explicit_fields (Some ∅) = (∅, ∅).
Proof.
  assert (∀ d, default ∅ d = (∅ : gmap string pyval) →
               _get_configurable_fields cls explicit_fields d = (∅, ∅)) as H.
  { intros d Hd.
    pose proof (discover_valid_fields cls explicit_fields d) as Hv.
    pose proof (discover_types_agree cls explicit_fields d) as Ht.
    destruct (_get_configurable_fields cls explicit_fields d) as [ft vf].
    unfold types_agree, passes_filters in *. simpl in *.
    assert (vf = ∅) as ->.
    { apply set_eq. intros name. rewrite Hv, Hd, lookup_empty.
      split; [|set_solver]. intros (_ & _ & [? ?] & _). done. }
    f_equal. apply map_eq. intros name. rewrite Ht, lookup_empty.
    by rewrite decide_False by set_solver. }
  split; by apply H.
Qed.

Lemma discovery_ignores_the_default_values_witness :
  dom ({[ "size" := VInt 10 ]} : gmap string pyval)
  = dom ({[ "size" := VStr "ten" ]} : gmap string pyval) ∧
  _get_configurable_fields Widget.cls None (Some {[ "size" := VInt 10 ]})
  = _get_configurable_fields Widget.cls None (Some {[ "size" := VStr "ten" ]}).
Proof.
  assert (dom ({[ "size" := VInt 10 ]} : gmap string pyval)
          = dom ({[ "size" := VStr "ten" ]} : gmap string pyval)) as H
    by (vm_compute; reflexivity).
  split; [exact H|].
  exact (discovery_ignores_the_default_values Widget.cls None _ _ H).
Defined.

(** ** Dictionaries, again *)

Lemma Dict_set_set {V} (d : Dict.t V) k v v' :
  Dict.set (Dict.set d k v) k v' = Dict.set d k v'.
Proof.
  induction d as [|[k0 v0] d IH]; simpl.
  - by rewrite decide_True.
  - destruct (decide (k0 = k)) as [->|Hne]; simpl.
    + by rewrite decide_True.
    + rewrite decide_False by done. by rewrite IH.
Qed.

Lemma Dict_keys_set {V} (d : Dict.t V) k v :
  Dict.keys (Dict.set d k v)
  = if decide (k ∈ Dict.keys d) then Dict.keys d else Dict.keys d ++ [k].
Proof.
  unfold Dict.keys. induction d as [|[k0 v0] d IH].
  - destruct (decide (k ∈ ([] : Dict.t V).*1)) as [H|H]; [|done].
    by apply elem_of_nil in H.
  - cbn [Dict.set]. destruct (decide (k0 = k)) as [->|Hne].
    + destruct (decide (k ∈ ((k, v0) :: d).*1)) as [H|H]; [done|].
      destruct H. apply list_elem_of_here.
    + rewrite fmap_cons, IH. cbn [fst].
      destruct (decide (k ∈ d.*1)) as [Hin|Hnin];
        destruct (decide (k ∈ ((k0, v0) :: d).*1)) as [H|H]; try done.
      * destruct H. rewrite fmap_cons. by apply list_elem_of_further.
      * rewrite fmap_cons in H. apply elem_of_cons in H as [H|H]; [|done].
        simpl in H. congruence.
Qed.

Lemma Dict_others_set {V} (d : list (string * V)) k v :
  filter (λ kv, kv.1 ≠ k) (Dict.set d k v : list (string * V))
  = filter (λ kv, kv.1 ≠ k) d.
Proof.
  induction d as [|[k0 v0] d IH]; cbn [Dict.set].
  - rewrite filter_cons_False; [done|]. simpl. by intros H.
  - destruct (decide (k0 = k)) as [->|Hne].
    + rewrite !filter_cons_False; [done| |]; simpl; by intros H.
    + rewrite !filter_cons_True by done. by rewrite IH.
Qed.

(** ** The document file at save time *)

Lemma reread_json self s v :
  st_fs s !! _path self = Some (Data (Json v)) → reread self s = (Ok v, s).
Proof.
  unfold reread, open_read. unfold_monad. cbn beta. intros H.
  by rewrite (exists_of_file _ _ _ H), H.
Qed.

Lemma reread_recovers self s :
  st_fs s !! _path self = None ∨
  st_fs s !! _path self = Some Denied ∨
  st_fs s !! _path self = Some (Data NotJson) ∨
  st_fs s !! _path self = Some (Data ReadError) →
  reread self s = (Ok (VDict []), s).
Proof.
  unfold reread, open_read. unfold_monad. cbn beta.
  intros [H|[H|[H|H]]].
  - by rewrite (exists_of_no_file _ _ H).
  - by rewrite (exists_of_file _ _ _ H), H.
  - by rewrite (exists_of_file _ _ _ H), H.
  - by rewrite (exists_of_file _ _ _ H), H.
Qed.

Lemma reread_not_utf8 self s :
  st_fs s !! _path self = Some (Data NotUtf8) →
  reread self s = (Raise (Exn UnicodeDecodeError "invalid start byte"), s).
Proof.
  unfold reread, open_read. unfold_monad. cbn beta. intros H.
  by rewrite (exists_of_file _ _ _ H), H.
Qed.

Section MoreSession.

Variable serialize_value : pyval → pytype → result pyval.
Variable deserialize_value : pyval → pytype → result pyval.

(** X5 — The load phase only reads: whatever it returns or raises, the
    file system is as it was and no operation on it has been made. *)
Theorem load_never_touches_the_files
    (self : ConfigSession) (s : state) (r : result unit) (s' : state) :
  __enter__ deserialize_value self s = (r, s') →
  st_fs s' = st_fs s ∧ st_log s' = st_log s.
Proof.
  intros H. apply enter_preserves_files in H. unfold files in H.
  by injection H.
Qed.

(** X6 — The save phase only reads the instance: whatever it returns or
    raises, the instance is as it was. *)
Theorem save_never_touches_the_instance
    (self : ConfigSession) (io : save_io) (s : state) (r : result unit)
    (s' : state) :
  __exit__ serialize_value self io s = (r, s') → st_inst s' = st_inst s.
Proof. apply exit_keeps_instance. Qed.

(** The new block is a function of the instance. *)
Lemma build_block_by_instance self fields block sa sb :
  st_inst sa = st_inst sb →
  (build_block serialize_value self fields block sa).1
  = (build_block serialize_value self fields block sb).1.
Proof.
  revert block sa sb. induction fields as [|key fields IH];
    intros block sa sb Hi; simpl; [done|].
  unfold mbind, M_bind, save_field, field_type_of, get_instance_attr.
  unfold_monad. rewrite Hi.
  destruct (_field_types self !! key) as [ty|]; [|done].
  destruct (getattr (st_inst sb) key) as [v|]; simpl.
  - destruct (serialize_value v ty) as [j|e]; simpl; by apply IH.
  - by apply IH.
Qed.

(** The loop of [__exit__] raises for a field without a type only. *)
Lemma build_block_raises self fields block :
  raises_only (build_block serialize_value self fields block)
              (λ e, exn_class e = KeyError).
Proof.
  revert block. induction fields as [|key fields IH]; intros block; simpl.
  - apply raises_only_ret.
  - apply raises_only_bind; [|intros b'; apply IH].
    unfold save_field. apply raises_only_bind.
    + apply raises_only_lift. intros e0 He0.
      by apply field_type_of_raises in He0.
    + intros ty. apply raises_only_try_all. intros e0.
      apply raises_only_bind; [apply raises_only_print|].
      intros _. apply raises_only_ret.
Qed.

(** What a save that completes has read, built and written. *)
Lemma completed_save self io s s' :
  _readonly self = false →
  __exit__ serialize_value self io s = (Ok tt, s') →
  ∃ d block s1 s2,
    reread self s = (Ok (VDict d), s1) ∧
    build_block serialize_value self (_fields_to_inject self) [] s1
      = (Ok block, s2) ∧
    st_inst s' = st_inst s ∧
    st_fs s' = <[_path self := Data (Json (VDict
                   (Dict.set d (_class_key self) (VDict block))))]> (st_fs s).
Proof.
  intros Hro H.
  pose proof (exit_keeps_instance _ _ _ _ _ _ H) as Hinst.
  apply exit_inv in H as [(e & _ & ?)|(doc & s2 & Hdoc & H)]; [done|].
  rewrite Hro in H.
  destruct (updated_document_state _ _ _ _ _ Hdoc) as (Hfs & _ & _).
  apply updated_document_inv in Hdoc as (d & block & s1 & Hread & Hblock & ->).
  apply persist_cases in H as (_ & _ & evs & _ & Hcase).
  destruct Hcase as [(_ & Hfs' & _)|(e & ? & _)]; [|done].
  exists d, block, s1, s2. by rewrite Hfs', Hfs.
Qed.

(** X7 — Saving twice in a row writes the same document twice: the
    second save finds the document of the first, builds the same block
    from the unchanged instance, and puts it where it already is. *)
Theorem save_twice_is_idempotent
    (self : ConfigSession) (io1 io2 : save_io) (s s1 s2 : state) :
  _readonly self = false →
  __exit__ serialize_value self io1 s = (Ok tt, s1) →
  __exit__ serialize_value self io2 s1 = (Ok tt, s2) →
  st_fs s2 !! _path self = st_fs s1 !! _path self.
Proof.
  intros Hro H1 H2.
  apply completed_save in H1 as (d & b & sa & sa' & Hr1 & Hb1 & Hi1 & Hfs1);
    [|done].
  apply completed_save in H2 as (d2 & b2 & sb & sb' & Hr2 & Hb2 & _ & Hfs2);
    [|done].
  assert (st_fs s1 !! _path self
          = Some (Data (Json (VDict (Dict.set d (_class_key self) (VDict b))))))
    as Hfile by (by rewrite Hfs1, lookup_insert_eq).
  rewrite (reread_json _ _ _ Hfile) in Hr2. injection Hr2 as <- <-.
  assert (b2 = b) as ->.
  { pose proof (build_block_by_instance self (_fields_to_inject self) [] s1 sa)
      as Hsame.
    rewrite Hb1, Hb2 in Hsame. simpl in Hsame.
    apply (reread_preserves st_inst) in Hr1.
    assert (Ok b2 = Ok b) as [= ->]; [|done]. apply Hsame. congruence. }
  rewrite Hfs2, Hfile, lookup_insert_eq. by rewrite Dict_set_set.
Qed.

(** X8 — What a save writes is what the next load reads: after a save
    that completes, the block of the class in the document is the block
    the save has built. *)
Theorem load_reads_what_save_wrote
    (self : ConfigSession) (io : save_io) (s s' : state) :
  _readonly self = false →
  __exit__ serialize_value self io s = (Ok tt, s') →
  ∃ d block s1 s2,
    reread self s = (Ok (VDict d), s1) ∧
    build_block serialize_value self (_fields_to_inject self) [] s1
      = (Ok block, s2) ∧
    load_class_config self s' = (Ok (VDict block), s').
Proof.
  intros Hro H.
  apply completed_save in H as (d & b & s1 & s2 & Hr & Hb & _ & Hfs); [|done].
  exists d, b, s1, s2. split; [done|]. split; [done|].
  rewrite (load_class_config_json self s'
             (VDict (Dict.set d (_class_key self) (VDict b)))).
  - simpl. by rewrite Dict_get_set_eq.
  - by rewrite Hfs, lookup_insert_eq.
Qed.

(** X9 — A document file that is absent or that cannot be opened, read
    or parsed is replaced, by a save that completes, with a document
    that holds the block of this class and nothing else: what the file
    held of other classes is gone. *)
Theorem save_replaces_an_unreadable_document
    (self : ConfigSession) (io : save_io) (s s' : state) :
  _readonly self = false →
  st_fs s !! _path self = None ∨
  st_fs s !! _path self = Some Denied ∨
  st_fs s !! _path self = Some (Data NotJson) ∨
  st_fs s !! _path self = Some (Data ReadError) →
  __exit__ serialize_value self io s = (Ok tt, s') →
  ∃ block s2,
    build_block serialize_value self (_fields_to_inject self) [] s
      = (Ok block, s2) ∧
    st_fs s' !! _path self
    = Some (Data (Json (VDict [(_class_key self, VDict block)]))).
Proof.
  intros Hro Hfile H.
  apply completed_save in H as (d & b & s1 & s2 & Hr & Hb & _ & Hfs); [|done].
  rewrite (reread_recovers _ _ Hfile) in Hr. injection Hr as <- <-.
  exists b, s2. split; [done|]. by rewrite Hfs, lookup_insert_eq.
Qed.

(** X10 — A document that is JSON and no mapping (a list, a string, a
    number, null) is an error in both phases: the load phase raises
    [AttributeError] with the state as it was, and the save phase raises
    [TypeError] (or the [KeyError] of a field without a type) and leaves
    the file system as it was. *)
Theorem non_mapping_document_raises
    (self : ConfigSession) (s : state) (v : pyval) :
  st_fs s !! _path self = Some (Data (Json v)) →
  (∀ d, v ≠ VDict d) →
  (∃ e, __enter__ deserialize_value self s = (Raise e, s) ∧
        exn_class e = AttributeError) ∧
  (∀ io r s',
     __exit__ serialize_value self io s = (r, s') →
     (∃ e, r = Raise e ∧ (exn_class e = TypeError ∨ exn_class e = KeyError)) ∧
     st_fs s' = st_fs s ∧ st_log s' = st_log s).
Proof.
  intros Hfile Hv. split.
  - unfold __enter__, mbind, M_bind.
    rewrite (load_class_config_json self s v Hfile).
    destruct v; simpl; try (eexists; split; [reflexivity|done]).
    by destruct (Hv d).
  - intros io r s' H.
    apply exit_inv in H as [(e & Hdoc & ->)|(doc & s1 & Hdoc & H)].
    + destruct (updated_document_state _ _ _ _ _ Hdoc) as (Hfs & Hlog & _).
      split; [|done]. exists e. split; [done|].
      unfold updated_document in Hdoc.
      apply bind_inv in Hdoc as [(full & sa & Hr & Hdoc)|(e' & Hr & _)];
        [|by rewrite (reread_json _ _ _ Hfile) in Hr].
      apply bind_inv in Hdoc as [(b & sb & Hb & Hset)|(e' & Hb & [= <-])].
      * left. unfold lift in Hset. injection Hset as Hset _.
        by apply py_setitem_raises in Hset.
      * right.
        pose proof (build_block_raises self (_fields_to_inject self) []) as Hraise.
        by apply (Hraise _ _ _ Hb).
    + exfalso. apply updated_document_inv in Hdoc as (d & b & sa & Hr & _).
      rewrite (reread_json _ _ _ Hfile) in Hr. injection Hr as -> _.
      by destruct (Hv d).
Qed.

(** X11 — A document file whose bytes are not UTF-8 is an error in both
    phases: each raises [UnicodeDecodeError], which neither [except]
    clause catches, and leaves the state as it was. *)
Theorem undecodable_document_raises
    (self : ConfigSession) (io : save_io) (s : state) :
  st_fs s !! _path self = Some (Data NotUtf8) →
  __enter__ deserialize_value self s
    = (Raise (Exn UnicodeDecodeError "invalid start byte"), s) ∧
  __exit__ serialize_value self io s
    = (Raise (Exn UnicodeDecodeError "invalid start byte"), s).
Proof.
  intros Hfile. split.
  - unfold __enter__, mbind, M_bind.
    by rewrite (load_class_config_not_utf8 self s Hfile).
  - unfold __exit__, updated_document, mbind, M_bind.
    by rewrite (reread_not_utf8 self s Hfile).
Qed.

End MoreSession.

Section MoreSaving.

Variable serialize_value : pyval → pytype → result pyval.
Variable deserialize_value : pyval → pytype → result pyval.

(** X12 — A save keeps the order of the document: the entries of the
    other classes are the same, in the same order, and the block of the
    class stays where it was, or goes last when the class is new. *)
Theorem save_keeps_the_order_of_the_document
    (self : ConfigSession) (io : save_io) (s s' : state) :
  _readonly self = false →
  __exit__ serialize_value self io s = (Ok tt, s') →
  ∃ d d' s1,
    reread self s = (Ok (VDict d), s1) ∧
    st_fs s' !! _path self = Some (Data (Json (VDict d'))) ∧
    filter (λ kv, kv.1 ≠ _class_key self) d'
    = filter (λ kv, kv.1 ≠ _class_key self) d ∧
    Dict.keys d'
    = if decide (_class_key self ∈ Dict.keys d) then Dict.keys d
      else Dict.keys d ++ [_class_key self].
Proof.
  intros Hro H.
  apply completed_save in H as (d & b & s1 & s2 & Hr & _ & _ & Hfs); [|done].
  exists d, (Dict.set d (_class_key self) (VDict b)), s1.
  split; [done|]. split; [by rewrite Hfs, lookup_insert_eq|].
  split; [apply Dict_others_set | apply Dict_keys_set].
Qed.

(** X13 — When the codec returns a value that [json.dump] cannot write,
    the save raises [TypeError]: the temporary file is created, written
    in part and removed, and the file system is as it was. *)
Theorem unserialisable_value_fails_the_save
    (self : ConfigSession) (io : save_io) (s s1 : state) (doc : pyval)
    (tmp : string) :
  _readonly self = false →
  updated_document serialize_value self s = (Ok doc, s1) →
  json_serialisable doc = false →
  io_tmp io = Some tmp →
  st_fs s !! tmp = None →
  ∃ s', __exit__ serialize_value self io s
        = (Raise (Exn TypeError "Object is not JSON serializable"), s') ∧
        st_fs s' = st_fs s ∧
        st_log s' = st_log s ++ [EvCreate tmp; EvWrite tmp NotJson; EvUnlink tmp].
Proof.
  intros Hro Hdoc Hj Htmp Hfresh.
  destruct (updated_document_state _ _ _ _ _ Hdoc) as (Hfs & Hlog & _).
  unfold __exit__, mbind at 1. unfold M_bind at 1. rewrite Hdoc, Hro. simpl.
  unfold persist, mkstemp, dump_to, os_replace, os_unlink, with_fs.
  unfold_monad. rewrite Htmp, Hfs, Hfresh. simpl. rewrite Hj. simpl.
  rewrite lookup_insert_eq. simpl. eexists. split; [reflexivity|]. simpl.
  split; [by apply temporary_file_gone|]. by rewrite Hlog, <- !app_assoc.
Qed.

(** X14 — With no document file, or one that is not JSON or fails to be
    read, the load phase completes and runs every field through the
    codec from the value the instance has. *)
Theorem load_recovers_from_a_missing_or_malformed_document
    (self : ConfigSession) (s : state) :
  st_fs s !! _path self = None ∨
  st_fs s !! _path self = Some (Data NotJson) ∨
  st_fs s !! _path self = Some (Data ReadError) →
  NoDup (_fields_to_inject self) →
  (∀ k, k ∈ _fields_to_inject self → is_Some (_field_types self !! k)) →
  ∃ s', __enter__ deserialize_value self s = (Ok tt, s') ∧
    ∀ key current field_type injected_val,
      key ∈ _fields_to_inject self →
      getattr (st_inst s) key = Some current →
      _field_types self !! key = Some field_type →
      deserialize_value current field_type = Ok injected_val →
      cls_setattr (inst_class (st_inst s)) = None →
      getattr (st_inst s') key = Some injected_val.
Proof.
  intros Hfile Hnd Hft.
  assert ((load_class_config self s).1 = Ok (VDict [])) as Hcfg
    by (by rewrite (load_class_config_recovers self s Hfile)).
  destruct (enter_spec deserialize_value self [] s Hnd Hft Hcfg)
    as (s' & Hrun & _ & _ & Hin).
  exists s'. split; [done|]. intros key current ty v Hkey Hget Hty Hdec Hnone.
  specialize (Hin key Hkey).
  assert (load_attempt deserialize_value self [] (st_inst s) key = Some (Ok v))
    as Hatt.
  { unfold load_attempt, setattr. simpl. by rewrite Hget, Hty, Hdec, Hnone. }
  rewrite Hatt in Hin. unfold getattr. rewrite Hin.
  unfold after_assign. rewrite Hnone. simpl. by rewrite lookup_insert_eq.
Qed.

End MoreSaving.

(** ** The decorator, again *)

Lemma session_of_parts self cls :
  _readonly (session_of self cls) = readonly self ∧
  _path (session_of self cls) = conf_path self ∧
  _class_key (session_of self cls) = cls_qualname cls ∧
  _field_types (session_of self cls)
  = (_get_configurable_fields cls (_fields self)
       (Some (collect_defaults cls))).1 ∧
  _fields_to_inject (session_of self cls)
  = elements (_get_configurable_fields cls (_fields self)
                (Some (collect_defaults cls))).2.
Proof.
  unfold session_of.
  by destruct (_get_configurable_fields cls (_fields self)
                 (Some (collect_defaults cls))).
Qed.

(** Every field of the session of the decorator has the type of its
    annotation. *)
Lemma session_of_typed self cls k :
  k ∈ _fields_to_inject (session_of self cls) →
  is_Some (cls_hints cls !! k) ∧
  _field_types (session_of self cls) !! k = cls_hints cls !! k.
Proof.
  destruct (session_of_parts self cls) as (_ & _ & _ & -> & ->).
  rewrite elem_of_elements. intros Hk.
  rewrite (discover_types_agree cls (_fields self)
             (Some (collect_defaults cls)) k).
  rewrite decide_True by done. split; [|done].
  by apply discover_valid_fields in Hk as (_ & ? & _).
Qed.

Lemma persist_raises_os_or_type self io doc :
  raises_only (persist self io doc)
              (λ e, exn_class e = OSError ∨ exn_class e = TypeError).
Proof.
  intros s e s'.
  unfold persist, mkstemp, dump_to, os_replace, os_unlink, with_fs.
  unfold_monad.
  destruct (io_tmp io) as [tmp|]; simpl; [|intros [= <- _]; by left].
  destruct (st_fs s !! tmp); simpl; [intros [= <- _]; by left|].
  destruct (json_serialisable doc); [destruct (io_write_ok io)|]; simpl;
    rewrite ?lookup_insert_eq; simpl.
  - destruct (io_replace_ok io); simpl; [done|].
    rewrite lookup_insert_eq. simpl. intros [= <- _]; by left.
  - intros [= <- _]; by left.
  - intros [= <- _]; by right.
Qed.

Lemma load_class_config_raises self :
  raises_only (load_class_config self) (λ e, exn_class e ≠ KeyError).
Proof.
  unfold load_class_config, path_exists.
  apply raises_only_bind; [apply raises_only_gets|].
  intros [|]; [|apply raises_only_ret].
  apply raises_only_bind.
  { apply raises_only_open_read. intros e He. by rewrite He. }
  intros c. apply raises_only_try; [|intros _; apply raises_only_ret].
  apply raises_only_bind.
  - apply raises_only_lift. intros e He Hc.
    by rewrite (json_load_raises c e He Hc).
  - intros v. apply raises_only_lift. intros e He _.
    apply py_get_raises in He. by rewrite He.
Qed.

Lemma reread_raises self :
  raises_only (reread self) (λ e, exn_class e = UnicodeDecodeError).
Proof.
  unfold reread, path_exists.
  apply raises_only_bind; [apply raises_only_gets|].
  intros [|]; [|apply raises_only_ret].
  apply raises_only_try; [|intros _; apply raises_only_ret].
  apply raises_only_bind.
  - intros s e s' H Hc. unfold open_read in H.
    destruct (st_fs s !! _path self) as [[|c]|]; inversion H; subst; done.
  - intros c. apply raises_only_lift. intros e He Hc.
    by apply (json_load_raises c).
Qed.

Section MoreDecorator.

Variable serialize_value : pyval → pytype → result pyval.
Variable deserialize_value : pyval → pytype → result pyval.

Lemma inject_fields_raises_typed self class_config fields :
  (∀ k, k ∈ fields → is_Some (_field_types self !! k)) →
  raises_only (for_each fields (inject_field deserialize_value self class_config))
              (λ e, exn_class e ≠ KeyError).
Proof.
  induction fields as [|key fields IH]; intros Hft; simpl.
  - apply raises_only_ret.
  - apply raises_only_bind.
    + destruct (Hft key (list_elem_of_here _ _)) as [ty Hty].
      unfold inject_field.
      apply raises_only_bind; [apply raises_only_gets|].
      intros [|]; [|apply raises_only_ret].
      apply raises_only_bind.
      { intros s e s' H. unfold get_instance_attr in H.
        destruct (getattr _ _); inversion H; subst. done. }
      intros dv. apply raises_only_bind.
      { apply raises_only_lift. unfold field_type_of. by rewrite Hty. }
      intros ty'. apply raises_only_bind.
      { apply raises_only_lift. intros e He. apply py_get_raises in He.
        by rewrite He. }
      intros raw. apply raises_only_try_all. intros e. apply raises_only_print.
    + intros _. apply IH. intros k Hk. apply Hft. by apply list_elem_of_further.
Qed.

(** X15 — The session that the decorator opens is well formed: its
    fields are distinct, each has the type of its annotation, and so
    neither phase raises [KeyError] at [self._field_types[key]]. *)
Theorem decorator_session_never_raises_KeyError (self : Inject) (cls : class) :
  let session := session_of self cls in
  NoDup (_fields_to_inject session) ∧
  (∀ k, k ∈ _fields_to_inject session →
        is_Some (cls_hints cls !! k) ∧
        _field_types session !! k = cls_hints cls !! k) ∧
  (∀ s e s',
     __enter__ deserialize_value session s = (Raise e, s') →
     exn_class e ≠ KeyError) ∧
  (∀ io s e s',
     __exit__ serialize_value session io s = (Raise e, s') →
     exn_class e ≠ KeyError).
Proof.
  intros session. subst session.
  assert (∀ k, k ∈ _fields_to_inject (session_of self cls) →
               is_Some (_field_types (session_of self cls) !! k)) as Hft.
  { intros k Hk. destruct (session_of_typed self cls k Hk) as [? ->]. done. }
  split; [|split; [by apply session_of_typed|split]].
  - destruct (session_of_parts self cls) as (_ & _ & _ & _ & Hf).
    rewrite Hf. apply NoDup_elements.
  - intros s e s' H. unfold __enter__ in H.
    apply bind_inv in H as [(cfg & s1 & _ & H)|(e' & H & [= <-])].
    + by apply (inject_fields_raises_typed (session_of self cls) cfg _ Hft) in H.
    + by apply load_class_config_raises in H.
  - intros io s e s' H.
    apply exit_inv in H as [(e' & Hdoc & [= <-])|(doc & s1 & _ & H)].
    + unfold updated_document in Hdoc.
      apply bind_inv in Hdoc as [(full & sa & _ & Hdoc)|(e' & Hr & [= <-])].
      * apply bind_inv in Hdoc as [(b & sb & _ & Hset)|(e' & Hb & _)].
        -- unfold lift in Hset. injection Hset as Hset _.
           apply py_setitem_raises in Hset. by rewrite Hset.
        -- destruct (build_block_spec serialize_value (session_of self cls)
                       (_fields_to_inject (session_of self cls)) [] sa Hft)
             as (b & sb & Hrun & _).
           congruence.
      * apply reread_raises in Hr. by rewrite Hr.
    + destruct (_readonly (session_of self cls)); [by destruct H|].
      apply persist_raises_os_or_type in H. intros He. rewrite He in H.
      by destruct H.
Qed.

(** X16 — A construction that raises after the original initialiser has
    returned leaves the file system as the initialiser left it: the
    error of an empty discovery and the errors of the load phase come
    before any write, and a save that raises has removed its temporary
    file. *)
Theorem failed_construction_writes_nothing
    (self : Inject) (cls : class) (original_init : M unit) (io : save_io)
    (s s0 : state) (e : exn) (s' : state) :
  original_init s = (Ok tt, s0) →
  new_init serialize_value deserialize_value self cls original_init io s
    = (Raise e, s') →
  st_fs s' = st_fs s0.
Proof.
  intros H0 H. rewrite (new_init_unfold _ _ _ _ _ _ _ _ H0) in H.
  destruct (decide _); [by injection H as _ <-|].
  apply bind_inv in H as [(a & s1 & H1 & H2)|(e' & H1 & _)].
  - apply enter_preserves_files in H1. unfold files in H1.
    injection H1 as Hfs1 _. rewrite <- Hfs1.
    apply exit_inv in H2 as [(e' & Hdoc & _)|(doc & s2 & Hdoc & H2)].
    + by destruct (updated_document_state _ _ _ _ _ Hdoc) as (? & _).
    + destruct (updated_document_state _ _ _ _ _ Hdoc) as (Hfs2 & _).
      destruct (_readonly (session_of self cls)); [by destruct H2|].
      apply persist_cases in H2 as (_ & _ & evs & _ & Hcase).
      destruct Hcase as [(? & _)|(e' & _ & Hfs' & _)]; [done|]. congruence.
  - apply enter_preserves_files in H1. unfold files in H1. by injection H1.
Qed.


(** X18 — A construction that completes on a class that is not read-only
    leaves a document with a block for the qualified name of the class,
    and every name of that block is a discovered field: no other
    attribute of the instance is persisted. *)
Theorem only_discovered_fields_are_persisted
    (self : Inject) (cls : class) (original_init : M unit) (io : save_io)
    (s s0 s' : state) :
  readonly self = false →
  original_init s = (Ok tt, s0) →
  new_init serialize_value deserialize_value self cls original_init io s
    = (Ok tt, s') →
  ∃ d' block,
    st_fs s' !! conf_path self = Some (Data (Json (VDict d'))) ∧
    Dict.get d' (cls_qualname cls) = Some (VDict block) ∧
    ∀ k, is_Some (Dict.get block k) →
         k ∈ (_get_configurable_fields cls (_fields self)
                (Some (collect_defaults cls))).2.
Proof.
  intros Hro H0 H. rewrite (new_init_unfold _ _ _ _ _ _ _ _ H0) in H.
  destruct (decide _); [done|].
  apply bind_inv in H as [(a & s1 & _ & H)|(e' & _ & ?)]; [|done].
  destruct (session_of_parts self cls) as (Hr & Hp & Hk & _ & Hf).
  apply completed_save in H as (d & b & sa & sb & _ & Hb & _ & Hfs);
    [|by rewrite Hr].
  exists (Dict.set d (cls_qualname cls) (VDict b)), b.
  rewrite Hp, Hk in Hfs. split; [by rewrite Hfs, lookup_insert_eq|].
  split; [apply Dict_get_set_eq|]. intros k [v Hv].
  destruct (build_block_spec serialize_value (session_of self cls)
              (_fields_to_inject (session_of self cls)) [] sa)
    as (b' & sb' & Hrun & _ & _ & _ & _ & Hget).
  { intros k' Hk'. destruct (session_of_typed self cls k' Hk') as [? ->]. done. }
  rewrite Hb in Hrun. injection Hrun as <- _.
  rewrite Hget in Hv. rewrite Hf in Hv.
  destruct (decide (k ∈ elements _)) as [Hin|]; [|done].
  by apply elem_of_elements in Hin.
Qed.

End MoreDecorator.

(** ** More concrete runs *)

Lemma load_never_touches_the_files_witness :
  let out := __enter__ Widget.codec (Widget.session false) Widget.s_bad in
  out = (out.1, out.2) ∧
  st_fs out.2 = st_fs Widget.s_bad ∧ st_log out.2 = st_log Widget.s_bad.
Proof.
  intros out.
  assert (out = (out.1, out.2)) as H by (vm_compute; reflexivity).
  split; [exact H|].
  exact (load_never_touches_the_files Widget.codec (Widget.session false)
           Widget.s_bad out.1 out.2 H).
Defined.

Lemma save_never_touches_the_instance_witness :
  let out := __exit__ Widget.codec (Widget.session false) Widget.io_ok
               Widget.s_bad in
  out = (out.1, out.2) ∧ st_inst out.2 = st_inst Widget.s_bad.
Proof.
  intros out.
  assert (out = (out.1, out.2)) as H by (vm_compute; reflexivity).
  split; [exact H|].
  exact (save_never_touches_the_instance Widget.codec (Widget.session false)
           Widget.io_ok Widget.s_bad out.1 out.2 H).
Defined.

Lemma save_twice_is_idempotent_witness :
  let s1 := (__exit__ Widget.codec (Widget.session false) Widget.io_ok
               Widget.s42).2 in
  let s2 := (__exit__ Widget.codec (Widget.session false) Widget.io_ok s1).2 in
  _readonly (Widget.session false) = false ∧
  __exit__ Widget.codec (Widget.session false) Widget.io_ok Widget.s42
    = (Ok tt, s1) ∧
  __exit__ Widget.codec (Widget.session false) Widget.io_ok s1 = (Ok tt, s2) ∧
  st_fs s2 !! Widget.path = st_fs s1 !! Widget.path.
Proof.
  intros s1 s2.
  assert (__exit__ Widget.codec (Widget.session false) Widget.io_ok Widget.s42
          = (Ok tt, s1)) as H1 by (vm_compute; reflexivity).
  assert (__exit__ Widget.codec (Widget.session false) Widget.io_ok s1
          = (Ok tt, s2)) as H2 by (vm_compute; reflexivity).
  split; [reflexivity|]. split; [exact H1|]. split; [exact H2|].
  exact (save_twice_is_idempotent Widget.codec (Widget.session false)
           Widget.io_ok Widget.io_ok Widget.s42 s1 s2 eq_refl H1 H2).
Defined.

Lemma load_reads_what_save_wrote_witness :
  let s1 := (__exit__ Widget.codec (Widget.session false) Widget.io_ok
               Widget.s42).2 in
  _readonly (Widget.session false) = false ∧
  __exit__ Widget.codec (Widget.session false) Widget.io_ok Widget.s42
    = (Ok tt, s1) ∧
  ∃ block, load_class_config (Widget.session false) s1 = (Ok (VDict block), s1).
Proof.
  intros s1.
  assert (__exit__ Widget.codec (Widget.session false) Widget.io_ok Widget.s42
          = (Ok tt, s1)) as H1 by (vm_compute; reflexivity).
  split; [reflexivity|]. split; [exact H1|].
  destruct (load_reads_what_save_wrote Widget.codec (Widget.session false)
              Widget.io_ok Widget.s42 s1 eq_refl H1)
    as (d & block & sa & sb & _ & _ & H).
  exists block. exact H.
Defined.

Lemma save_replaces_an_unreadable_document_witness :
  let s := Widget.start {[ Widget.path := Data NotJson ]} (Widget.fresh ∅) in
  let s' := (__exit__ Widget.codec (Widget.session false) Widget.io_ok s).2 in
  _readonly (Widget.session false) = false ∧
  st_fs s !! _path (Widget.session false) = Some (Data NotJson) ∧
  __exit__ Widget.codec (Widget.session false) Widget.io_ok s = (Ok tt, s') ∧
  ∃ block, st_fs s' !! Widget.path
           = Some (Data (Json (VDict [("Widget", VDict block)]))).
Proof.
  intros s s'.
  assert (st_fs s !! _path (Widget.session false) = Some (Data NotJson)) as Hf
    by (vm_compute; reflexivity).
  assert (__exit__ Widget.codec (Widget.session false) Widget.io_ok s
          = (Ok tt, s')) as H by (vm_compute; reflexivity).
  split; [reflexivity|]. split; [exact Hf|]. split; [exact H|].
  destruct (save_replaces_an_unreadable_document Widget.codec
              (Widget.session false) Widget.io_ok s s' eq_refl
              (or_intror (or_intror (or_introl Hf))) H)
    as (block & sb & _ & Hfile).
  exists block. exact Hfile.
Defined.

Lemma non_mapping_document_raises_witness :
  let s := Widget.start {[ Widget.path := Data (Json (VList [VInt 1])) ]}
             (Widget.fresh ∅) in
  st_fs s !! _path (Widget.session false) = Some (Data (Json (VList [VInt 1]))) ∧
  (∀ d, VList [VInt 1] ≠ VDict d) ∧
  ∃ e, __enter__ Widget.codec (Widget.session false) s = (Raise e, s) ∧
       exn_class e = AttributeError.
Proof.
  intros s.
  assert (st_fs s !! _path (Widget.session false)
          = Some (Data (Json (VList [VInt 1])))) as Hf by (vm_compute; reflexivity).
  assert (∀ d, VList [VInt 1] ≠ VDict d) as Hv by (intros d; discriminate).
  split; [exact Hf|]. split; [exact Hv|].
  exact (proj1 (non_mapping_document_raises Widget.codec Widget.codec
                  (Widget.session false) s (VList [VInt 1]) Hf Hv)).
Defined.

Lemma undecodable_document_raises_witness :
  let s := Widget.start {[ Widget.path := Data NotUtf8 ]} (Widget.fresh ∅) in
  st_fs s !! _path (Widget.session false) = Some (Data NotUtf8) ∧
  __enter__ Widget.codec (Widget.session false) s
    = (Raise (Exn UnicodeDecodeError "invalid start byte"), s) ∧
  __exit__ Widget.codec (Widget.session false) Widget.io_ok s
    = (Raise (Exn UnicodeDecodeError "invalid start byte"), s).
Proof.
  intros s.
  assert (st_fs s !! _path (Widget.session false) = Some (Data NotUtf8)) as Hf
    by (vm_compute; reflexivity).
  split; [exact Hf|].
  exact (undecodable_document_raises Widget.codec Widget.codec
           (Widget.session false) Widget.io_ok s Hf).
Defined.

Lemma save_keeps_the_order_of_the_document_witness :
  let s' := (__exit__ Widget.codec (Widget.session false) Widget.io_ok
               Widget.s42).2 in
  _readonly (Widget.session false) = false ∧
  __exit__ Widget.codec (Widget.session false) Widget.io_ok Widget.s42
    = (Ok tt, s') ∧
  ∃ d', st_fs s' !! Widget.path = Some (Data (Json (VDict d'))) ∧
        Dict.keys d' = ["Gadget"; "Widget"].
Proof.
  intros s'.
  assert (__exit__ Widget.codec (Widget.session false) Widget.io_ok Widget.s42
          = (Ok tt, s')) as H by (vm_compute; reflexivity).
  split; [reflexivity|]. split; [exact H|].
  destruct (save_keeps_the_order_of_the_document Widget.codec
              (Widget.session false) Widget.io_ok Widget.s42 s' eq_refl H)
    as (d & d' & s1 & Hread & Hfile & _ & Hkeys).
  exists d'. split; [exact Hfile|]. rewrite Hkeys.
  vm_compute in Hread. injection Hread as <- _. vm_compute. reflexivity.
Defined.

Lemma unserialisable_value_fails_the_save_witness :
  let codec := (λ v _, Ok v) : pyval → pytype → result pyval in
  let s := Widget.start ∅ (Widget.fresh {[ "size" := VObj "set" ]}) in
  let doc := VDict [("Widget", VDict [("size", VObj "set"); ("label", VStr "w")])] in
  _readonly (Widget.session false) = false ∧
  updated_document codec (Widget.session false) s = (Ok doc, s) ∧
  json_serialisable doc = false ∧
  ∃ s', __exit__ codec (Widget.session false) Widget.io_ok s
        = (Raise (Exn TypeError "Object is not JSON serializable"), s') ∧
        st_fs s' = st_fs s.
Proof.
  intros codec s doc.
  assert (updated_document codec (Widget.session false) s = (Ok doc, s)) as Hdoc
    by (vm_compute; reflexivity).
  split; [reflexivity|]. split; [exact Hdoc|]. split; [reflexivity|].
  destruct (unserialisable_value_fails_the_save codec (Widget.session false)
              Widget.io_ok s s doc Widget.tmp eq_refl Hdoc eq_refl eq_refl
              eq_refl) as (s' & Hrun & Hfs & _).
  exists s'. split; [exact Hrun | exact Hfs].
Defined.

Lemma load_recovers_from_a_missing_or_malformed_document_witness :
  let s := Widget.start ∅ (Widget.fresh ∅) in
  st_fs s !! _path (Widget.session false) = None ∧
  NoDup (_fields_to_inject (Widget.session false)) ∧
  ∃ s', __enter__ Widget.codec (Widget.session false) s = (Ok tt, s') ∧
        getattr (st_inst s') "size" = Some (VInt 10).
Proof.
  intros s.
  assert (NoDup (_fields_to_inject (Widget.session false))) as Hnd
    by (apply (bool_decide_unpack _); vm_compute; exact I).
  split; [reflexivity|]. split; [exact Hnd|].
  destruct (load_recovers_from_a_missing_or_malformed_document Widget.codec
              (Widget.session false) s (or_introl eq_refl) Hnd
              ltac:(fields_typed)) as (s' & Hrun & H).
  exists s'. split; [exact Hrun|].
  apply (H "size" (VInt 10) "int"); [in_fields | vm_compute; reflexivity..].
Defined.

Lemma failed_construction_writes_nothing_witness :
  let out := new_init Widget.codec Widget.codec Widget.inject_rw Widget.cls
               (mret tt) Widget.io_rename_fails Widget.s42 in
  (mret tt : M unit) Widget.s42 = (Ok tt, Widget.s42) ∧
  out = (Raise (Exn OSError "Permission denied"), out.2) ∧
  st_fs out.2 = st_fs Widget.s42.
Proof.
  intros out.
  assert (out = (Raise (Exn OSError "Permission denied"), out.2)) as H
    by (vm_compute; reflexivity).
  split; [reflexivity|]. split; [exact H|].
  exact (failed_construction_writes_nothing Widget.codec Widget.codec
           Widget.inject_rw Widget.cls (mret tt) Widget.io_rename_fails
           Widget.s42 Widget.s42 _ out.2 eq_refl H).
Defined.


Lemma only_discovered_fields_are_persisted_witness :
  let s := Widget.start ∅ (Widget.fresh ∅) in
  let out := new_init Widget.codec Widget.codec Widget.inject_rw Widget.cls
               (mret tt) Widget.io_ok s in
  readonly Widget.inject_rw = false ∧
  (mret tt : M unit) s = (Ok tt, s) ∧
  out = (Ok tt, out.2) ∧
  ∃ d' block,
    st_fs out.2 !! conf_path Widget.inject_rw = Some (Data (Json (VDict d'))) ∧
    Dict.get d' "Widget" = Some (VDict block).
Proof.
  intros s out.
  assert (out = (Ok tt, out.2)) as H by (vm_compute; reflexivity).
  split; [reflexivity|]. split; [reflexivity|]. split; [exact H|].
  destruct (only_discovered_fields_are_persisted Widget.codec Widget.codec
              Widget.inject_rw Widget.cls (mret tt) Widget.io_ok s s out.2
              eq_refl eq_refl H) as (d' & block & Hfile & Hblock & _).
  exists d', block. split; [exact Hfile | exact Hblock].
Defined.

(** ** Every field is accounted for *)

Section Accounting.

Variable serialize_value : pyval → pytype → result pyval.

(** X19 — In the save phase every field with a declared type is either
    in the new block or reported by one diagnostic, never both, and the
    block holds no other name. *)
Theorem every_field_is_saved_or_reported (self : ConfigSession) (s : state) :
  (∀ k, k ∈ _fields_to_inject self → is_Some (_field_types self !! k)) →
  ∃ class_block printed s',
    build_block serialize_value self (_fields_to_inject self) [] s
      = (Ok class_block, s') ∧
    st_out s' = st_out s ++ printed ∧
    (∀ key, key ∈ _fields_to_inject self →
       (is_Some (Dict.get class_block key) ∧
        ∀ d, d ∈ printed → diag_key d ≠ key) ∨
       (Dict.get class_block key = None ∧
        ∃ e, SaveSkip (_class_key self) key e ∈ printed)) ∧
    (∀ key, is_Some (Dict.get class_block key) → key ∈ _fields_to_inject self).
Proof.
  intros Hft.
  destruct (build_block_spec serialize_value self (_fields_to_inject self) [] s Hft)
    as (block & s' & Hrun & _ & _ & _ & Hout & Hget).
  exists block, (omap (save_skip serialize_value self (st_inst s))
                      (_fields_to_inject self)), s'.
  split; [done|]. split; [done|]. split.
  - intros key Hkey. specialize (Hget key). rewrite decide_True in Hget by done.
    destruct (Hft key Hkey) as [ty Hty].
    destruct (save_attempt serialize_value self (st_inst s) key)
      as [[encoded|e]|] eqn:Hatt.
    + left. split; [by rewrite Hget|]. intros d Hd Hk.
      apply list_elem_of_omap in Hd as (x & _ & Hx).
      apply save_skip_inv in Hx as (e & -> & Hx). simpl in Hk. subst x.
      congruence.
    + right. split; [done|]. exists e. apply list_elem_of_omap.
      exists key. split; [done|]. unfold save_skip. by rewrite Hatt.
    + unfold save_attempt in Hatt. by rewrite Hty in Hatt.
  - intros key [v Hv]. rewrite Hget in Hv.
    by destruct (decide (key ∈ _fields_to_inject self)).
Qed.

End Accounting.

Lemma every_field_is_saved_or_reported_witness :
  (∀ k, k ∈ _fields_to_inject (Widget.session false) →
        is_Some (_field_types (Widget.session false) !! k)) ∧
  ∃ class_block s',
    build_block Widget.codec (Widget.session false) ["size"; "label"] []
                Widget.s_bad = (Ok class_block, s') ∧
    Dict.get class_block "run" = None.
Proof.
  assert (∀ k, k ∈ _fields_to_inject (Widget.session false) →
               is_Some (_field_types (Widget.session false) !! k)) as Hft
    by fields_typed.
  split; [exact Hft|].
  destruct (every_field_is_saved_or_reported Widget.codec (Widget.session false)
              Widget.s_bad Hft) as (block & printed & s' & Hrun & _ & _ & Honly).
  exists block, s'. split; [exact Hrun|].
  destruct (Dict.get block "run") as [v|] eqn:E; [|reflexivity].
  exfalso. specialize (Honly "run" (ex_intro _ v E)). simpl in Honly.
  rewrite !elem_of_cons in Honly.
  destruct Honly as [?|[?|Hnil]]; [discriminate..|by apply elem_of_nil in Hnil].
Defined.
